(** * A shallow embedding of [solution.py]

    The program is a batch answer-selection pipeline: for every record of a
    pickled list it extracts the multiple-choice options from the question
    text ([parse_options]), normalises equations ([normalize_equation]),
    picks option letters by a small rule cascade ([baseline_heuristic]),
    assembles a result ([process_item]) and writes the collected results
    ([main]).

    Python strings are sequences of Unicode code points; they are modelled
    as lists of [N].  Exceptions are explicit: fallible code returns a
    [result]. *)

From Stdlib Require Import List NArith ZArith Bool Lia String Ascii.
From Stdlib Require Import Sorting.Sorted Sorting.Permutation.
Import ListNotations.

Local Open Scope N_scope.

(* ================================================================== *)
(** * The runtime: strings                                             *)
(* ================================================================== *)

(** A Python [str]: its code points, in order. *)
Definition str := list N.

(** String literals of the source that are plain ASCII. *)
Definition py (s : string) : str := map N_of_ascii (list_ascii_of_string s).

Definition LF : N := 10.
Definition CR : N := 13.
Definition DOT : N := 46.

(** The non-ASCII characters that occur in the source. *)
Definition CYRILLIC_A : N := 0x410.          (* А *)
Definition CYRILLIC_YA : N := 0x42f.         (* Я *)
Definition SUBSCRIPT_ONE : N := 0x2081.      (* ₁ *)
Definition SUBSCRIPT_TWO : N := 0x2082.      (* ₂ *)
Definition NOT_EQUAL_TO : N := 0x2260.       (* ≠ *)
Definition LESS_EQUAL : N := 0x2264.         (* ≤ *)
Definition GREATER_EQUAL : N := 0x2265.      (* ≥ *)
Definition LESS_SLANTED_EQUAL : N := 0x2a7d. (* ⩽ *)
Definition GREATER_SLANTED_EQUAL : N := 0x2a7e. (* ⩾ *)
Definition FULLWIDTH_EQUALS : N := 0xff1d.   (* ＝ *)

Module Py.

(** [s.startswith(p)]. *)
Fixpoint startswith (p s : str) : bool :=
  match p, s with
  | [], _ => true
  | _ :: _, [] => false
  | a :: p', b :: s' => (a =? b) && startswith p' s'
  end.

(** [sub in s]. *)
Fixpoint contains (sub s : str) : bool :=
  startswith sub s ||
  match s with
  | [] => false
  | _ :: s' => contains sub s'
  end.

(** [s.replace(old, new)] for a non-empty [old]: the occurrences of [old]
    are replaced from left to right, without overlap.  [skip] counts the
    characters of an occurrence that are still to be dropped.  (The program
    never passes an empty [old]; for it this function returns [s].) *)
Fixpoint replace_from (old new s : str) (skip : nat) : str :=
  match s with
  | [] => []
  | c :: s' =>
      match skip with
      | S k => replace_from old new s' k
      | O =>
          match old with
          | [] => c :: replace_from old new s' O
          | _ :: old' =>
              if startswith old s
              then new ++ replace_from old new s' (List.length old')
              else c :: replace_from old new s' O
          end
      end
  end.

Definition replace (old new s : str) : str := replace_from old new s O.

(** [c.isspace()], which is also what [\s] matches in a [str] pattern and
    what [strip()] removes: the code points CPython's
    [_PyUnicode_IsWhitespace] accepts. *)
Definition is_space (c : N) : bool :=
  ((9 <=? c) && (c <=? 13)) || ((28 <=? c) && (c <=? 32)) ||
  (c =? 0x85) || (c =? 0xa0) || (c =? 0x1680) ||
  ((0x2000 <=? c) && (c <=? 0x200a)) ||
  (c =? 0x2028) || (c =? 0x2029) || (c =? 0x202f) || (c =? 0x205f) ||
  (c =? 0x3000).

Fixpoint lstrip (s : str) : str :=
  match s with
  | [] => []
  | c :: s' => if is_space c then lstrip s' else s
  end.

Definition rstrip (s : str) : str := rev (lstrip (rev s)).

(** [s.strip()]. *)
Definition strip (s : str) : str := rstrip (lstrip s).

(** [re.sub(r'\s+', '', s)]: every run of whitespace is removed. *)
Definition remove_spaces (s : str) : str := filter (fun c => negb (is_space c)) s.

(** [s.split("\n")]: the pieces between line feeds; never empty. *)
Fixpoint split_lines (s : str) : list str :=
  match s with
  | [] => [[]]
  | c :: s' =>
      if c =? LF then [] :: split_lines s'
      else match split_lines s' with
           | [] => [[c]]
           | l :: ls => (c :: l) :: ls
           end
  end.

(** [sep.join(parts)] for the empty separator. *)
Definition join (parts : list str) : str := List.concat parts.

(** Comparison of strings: lexicographic on code points. *)
Fixpoint compare (a b : str) : comparison :=
  match a, b with
  | [], [] => Eq
  | [], _ :: _ => Lt
  | _ :: _, [] => Gt
  | x :: a', y :: b' =>
      match x ?= y with
      | Eq => compare a' b'
      | c => c
      end
  end.

Definition leb (a b : str) : bool :=
  match compare a b with Gt => false | _ => true end.

Definition lt (a b : str) : Prop := compare a b = Lt.

Definition eqb (a b : str) : bool :=
  match compare a b with Eq => true | _ => false end.

(** [set(xs)] keeps one copy of every element.  A Python set has no order
    of its own; the program only ever sorts it. *)
Fixpoint set (xs : list str) : list str :=
  match xs with
  | [] => []
  | x :: xs' => if existsb (eqb x) xs' then set xs' else x :: set xs'
  end.

Fixpoint insort (x : str) (l : list str) : list str :=
  match l with
  | [] => [x]
  | y :: l' => if leb x y then x :: l else y :: insort x l'
  end.

(** [sorted(xs)]. *)
Definition sorted (xs : list str) : list str := fold_right insort [] xs.

(** Truth value of a list: non-empty. *)
Definition truthy {A} (l : list A) : bool :=
  match l with [] => false | _ :: _ => true end.

End Py.

(* ================================================================== *)
(** * The runtime: case conversion                                     *)
(* ================================================================== *)

(** [str.lower()] consults the Unicode character database of the
    interpreter, which is not part of the program.  Its three tables are
    parameters: the full lower-case mapping of a code point, and the
    properties Cased and Case_Ignorable that decide the form of a
    lower-cased capital sigma. *)
Class CaseData := {
  to_lower_full : N -> list N;
  is_cased : N -> bool;
  is_case_ignorable : N -> bool
}.

Definition CAPITAL_SIGMA : N := 0x3a3.
Definition SMALL_FINAL_SIGMA : N := 0x3c2.
Definition SMALL_SIGMA : N := 0x3c3.

Definition ascii_lower (c : N) : N :=
  if (65 <=? c) && (c <=? 90) then c + 32 else c.

Section Lower.
Context {cd : CaseData}.

(** ASCII is lower-cased directly, every other code point by the table. *)
Definition lower_char (c : N) : list N :=
  if c <? 128 then [ascii_lower c] else to_lower_full c.

Fixpoint first_not_ignorable (s : str) : option N :=
  match s with
  | [] => None
  | c :: s' => if is_case_ignorable c then first_not_ignorable s' else Some c
  end.

(** CPython's [handle_capital_sigma]: a capital sigma becomes the final
    form when a cased letter precedes it and none follows it, case-ignorable
    characters skipped on both sides.  [before_rev] is the text before the
    sigma, nearest character first. *)
Definition final_sigma (before_rev after : str) : bool :=
  match first_not_ignorable before_rev with
  | None => false
  | Some c =>
      is_cased c &&
      match first_not_ignorable after with
      | None => true
      | Some d => negb (is_cased d)
      end
  end.

Fixpoint lower_from (before_rev s : str) : str :=
  match s with
  | [] => []
  | c :: s' =>
      (if c =? CAPITAL_SIGMA
       then [if final_sigma before_rev s' then SMALL_FINAL_SIGMA else SMALL_SIGMA]
       else lower_char c)
      ++ lower_from (c :: before_rev) s'
  end.

(** [s.lower()]. *)
Definition lower (s : str) : str := lower_from [] s.

End Lower.

(* ================================================================== *)
(** * Equation normaliser and decision engine                          *)
(* ================================================================== *)

(** [Option = Tuple[str, str]]: (letter, text). *)
Definition Option : Type := str * str.

Section Decision.
Context {cd : CaseData}.

Definition normalize_equation (s : str) : str :=
  let s := lower s in
  let s := Py.replace [SUBSCRIPT_TWO] (py "2") (Py.replace [SUBSCRIPT_ONE] (py "1") s) in
  let s := Py.remove_spaces s in
  let s := Py.replace [NOT_EQUAL_TO] (py "!=") (Py.replace [FULLWIDTH_EQUALS] (py "=") s) in
  let s := Py.replace [GREATER_EQUAL] (py ">=") (Py.replace [LESS_EQUAL] (py "<=") s) in
  let s := Py.replace [GREATER_SLANTED_EQUAL] (py ">=") (Py.replace [LESS_SLANTED_EQUAL] (py "<=") s) in
  let s := Py.replace [LESS_SLANTED_EQUAL] (py "<=") (Py.replace [GREATER_SLANTED_EQUAL] (py ">=") s) in
  s.

(** The local [looks_like_liquid] of [baseline_heuristic]. *)
Definition looks_like_liquid (question_text : str) : bool :=
  let normalized_q := normalize_equation question_text in
  existsb (fun tag => Py.contains tag normalized_q) [py "h1"; py "h2"]
  && Py.contains (py "level") (lower question_text).

Definition baseline_heuristic (question_text : str) (options : list Option) : str :=
  let looks_like_liquid := looks_like_liquid question_text in
  let norm_opts := map (fun o => (fst o, normalize_equation (snd o))) options in
  let has_h1_gt_h2 := existsb (fun o => Py.contains (py "h1>h2") (snd o)) norm_opts in
  let has_h2_gt_h1 := existsb (fun o => Py.contains (py "h2>h1") (snd o)) norm_opts in
  let has_h1_eq_h2 := filter (fun o => Py.contains (py "h1=h2") (snd o)) norm_opts in
  if looks_like_liquid && Py.truthy has_h1_eq_h2 then
    Py.join (Py.sorted (Py.set (map fst has_h1_eq_h2)))
  else
    let has_cannot_determine :=
      map fst (filter (fun o => Py.contains (py "cannot be determined") (lower (snd o))) options) in
    if Py.truthy has_cannot_determine && has_h1_gt_h2 && has_h2_gt_h1
       && negb (Py.truthy has_h1_eq_h2) then
      Py.join (Py.sorted (Py.set has_cannot_determine))
    else
      match options with
      | o :: _ => fst o
      | [] => []
      end.

End Decision.

(* ================================================================== *)
(** * Option extractor                                                 *)
(* ================================================================== *)

(** The character class [[A-ZА-Я]]. *)
Definition is_option_letter (c : N) : bool :=
  ((65 <=? c) && (c <=? 90)) || ((CYRILLIC_A <=? c) && (c <=? CYRILLIC_YA)).

(** The lookahead [\n[A-ZА-Я]\.] at the head of [s]. *)
Definition next_marker (s : str) : bool :=
  match s with
  | a :: c :: d :: _ => (a =? LF) && is_option_letter c && (d =? DOT)
  | _ => false
  end.

(** Group 2 of the pattern, [((?:(?!\n[A-ZА-Я]\.).)* )] under DOTALL: the
    characters up to the next marker or the end of the text. *)
Fixpoint option_body (s : str) : str :=
  match s with
  | [] => []
  | c :: s' => if next_marker s then [] else c :: option_body s'
  end.

(** One match of [([A-ZА-Я])\.\s*((?:(?!\n[A-ZА-Я]\.).)* )] at the head of
    [s]: group 1, group 2 and the number of characters matched.  Both
    repetitions are greedy and what follows them cannot fail, so there is
    no backtracking. *)
Definition match_option (s : str) : option (N * str * nat) :=
  match s with
  | c :: d :: s' =>
      if is_option_letter c && (d =? DOT) then
        let after := Py.lstrip s' in
        let body := option_body after in
        Some (c, body, (2 + (List.length s' - List.length after) + List.length body)%nat)
      else None
  | _ => None
  end.

(** [pattern.findall(text)]: the matches from left to right, each search
    resuming where the previous match ended.  [skip] counts the characters
    of the current match that are still to be passed. *)
Fixpoint findall_from (s : str) (skip : nat) : list (str * str) :=
  match s with
  | [] => []
  | _ :: s' =>
      match skip with
      | S k => findall_from s' k
      | O =>
          match match_option s with
          | Some (c, body, n) => ([c], body) :: findall_from s' (n - 1)
          | None => findall_from s' O
          end
      end
  end.

Definition findall (text : str) : list (str * str) := findall_from text O.

(** The characters of [s] before the first line feed, and the rest. *)
Fixpoint until_lf (s : str) : str * str :=
  match s with
  | [] => ([], [])
  | c :: s' =>
      if c =? LF then ([], s)
      else let (run, rest) := until_lf s' in (c :: run, rest)
  end.

(** [(.+)$] at the head of [s], without DOTALL or MULTILINE: at least one
    character other than a line feed, up to the end of the string or to a
    line feed that ends it. *)
Definition dot_plus_end (s : str) : option str :=
  match until_lf s with
  | ((_ :: _) as run, []) => Some run
  | ((_ :: _) as run, [_]) => Some run
  | _ => None
  end.

(** [\s*(.+)$]: the whitespace run gives characters back, one at a time
    from [k] of them, until the rest matches. *)
Fixpoint spaces_dot_plus_end (k : nat) (s : str) : option str :=
  match dot_plus_end (skipn k s) with
  | Some g => Some g
  | None =>
      match k with
      | O => None
      | S k' => spaces_dot_plus_end k' s
      end
  end.

(** [re.match(r'^\s*([A-ZА-Я])\.\s*(.+)$', l)]: groups 1 and 2. *)
Definition match_line (l : str) : option (str * str) :=
  match Py.lstrip l with
  | c :: d :: rest =>
      if is_option_letter c && (d =? DOT) then
        match spaces_dot_plus_end (List.length rest - List.length (Py.lstrip rest)) rest with
        | Some g => Some ([c], g)
        | None => None
        end
      else None
  | _ => None
  end.

Definition parse_options (question_text : str) : list Option :=
  let text := Py.replace [CR] [LF] (Py.replace [CR; LF] [LF] question_text) in
  let matches := findall text in
  if Py.truthy matches then
    map (fun m => (fst m, Py.strip (snd m))) matches
  else
    flat_map
      (fun line =>
         match match_line (Py.strip line) with
         | Some m => [(fst m, Py.strip (snd m))]
         | None => []
         end)
      (Py.split_lines text).

(** The text has an option letter directly followed by a period. *)
Fixpoint has_letter_dot (s : str) : bool :=
  match s with
  | c :: ((d :: _) as s') => (is_option_letter c && (d =? DOT)) || has_letter_dot s'
  | _ => false
  end.

(** The same, as a decomposition of the text. *)
Definition letter_dot (s : str) : Prop :=
  exists a c b, s = a ++ c :: DOT :: b /\ is_option_letter c = true.

(* ================================================================== *)
(** * Values, exceptions and the image library                         *)
(* ================================================================== *)

Inductive exn : Type :=
| AttributeError
| TypeError
| ValueError
| IndexError
| ImportError
| OtherError (name : string).

(** The outcome of code that may raise. *)
Inductive result (A : Type) : Type :=
| Ok (a : A)
| Raise (e : exn).
Arguments Ok {A} a.
Arguments Raise {A} e.

Definition bind {A B} (c : result A) (k : A -> result B) : result B :=
  match c with
  | Ok a => k a
  | Raise e => Raise e
  end.

Notation "x <- c ;; k" := (bind c (fun x => k))
  (at level 61, c at next level, right associativity).

(** [try: body / except Exception: handler]. *)
Definition try_except {A} (body : result A) (handler : exn -> result A) : result A :=
  match body with
  | Ok a => Ok a
  | Raise e => handler e
  end.

(** A numpy array: its shape and its buffer. *)
Record ndarray := { shape : list N; buffer : list N }.

(** The values a pickled record is built from.  The keys of a dict are
    strings: a key of another type is never equal to one of the string keys
    the program looks up. *)
#[warnings="-register-all"]
Inductive PyVal : Type :=
| VNone
| VBool (b : bool)
| VInt (z : Z)
| VStr (s : str)
| VBytes (b : list N)
| VArray (a : ndarray)
| VList (l : list PyVal)
| VDict (d : list (str * PyVal)).

Fixpoint lookup (key : str) (d : list (str * PyVal)) : option PyVal :=
  match d with
  | [] => None
  | (k, v) :: d' => if Py.eqb k key then Some v else lookup key d'
  end.

(** [item.get(key, default)]: only a dict has the method. *)
Definition get (item : PyVal) (key : str) (default : PyVal) : result PyVal :=
  match item with
  | VDict d => Ok (match lookup key d with Some v => v | None => default end)
  | _ => Raise AttributeError
  end.

(** [key in d] for a dict [d]. *)
Definition has_key (key : str) (d : PyVal) : bool :=
  match d with
  | VDict d => match lookup key d with Some _ => true | None => false end
  | _ => false
  end.

Definition is_None (v : PyVal) : bool :=
  match v with VNone => true | _ => false end.

(** The receiver of [question_text.replace("\r\n", "\n")]: a [str] has the
    method, [bytes] has it but refuses [str] arguments, nothing else has it. *)
Definition as_str (v : PyVal) : result str :=
  match v with
  | VStr s => Ok s
  | VBytes _ => Raise TypeError
  | _ => Raise AttributeError
  end.

Inductive mode : Type := L | RGB | RGBA.

(** PIL and numpy are external; what [load_image] asks of them is a
    parameter of the model. *)
Class ImageLib := {
  PIL_AVAILABLE : bool;
  numpy_importable : bool;
  Image : Type;
  Image_open_bytes : list N -> result Image;
  Image_open_path : str -> result Image;
  Image_convert_RGB : Image -> result Image;
  Image_fromarray : ndarray -> mode -> result Image;
  Image_mode_is_RGB : Image -> bool
}.

Definition ndim (a : ndarray) : nat := List.length (shape a).

(** [arr.shape[i]]. *)
Definition shape_at (a : ndarray) (i : nat) : result N :=
  match nth_error (shape a) i with
  | Some n => Ok n
  | None => Raise IndexError
  end.

(** [arr.transpose(1, 2, 0)] of a three-dimensional array: a view on the
    same buffer. *)
Definition transpose_1_2_0 (a : ndarray) : ndarray :=
  match shape a with
  | [c; h; w] => {| shape := [h; w; c]; buffer := buffer a |}
  | _ => a
  end.

Section Records.
Context {cd : CaseData} {il : ImageLib}.

(** Case 3 of [load_image], the body of the inner [try]. *)
Definition load_array (image_blob : PyVal) : result (option Image) :=
  if negb numpy_importable then Raise ImportError else
  match image_blob with
  | VArray a =>
      let arr :=
        if (ndim a =? 3)%nat &&
           match shape a with
           | s0 :: _ => (s0 =? 1) || (s0 =? 3) || (s0 =? 4)
           | [] => false
           end
        then transpose_1_2_0 a else a in
      m <- (if (ndim arr =? 2)%nat then Ok (Some L)
            else
              s2 <- shape_at arr 2 ;;
              if s2 =? 3 then Ok (Some RGB)
              else if s2 =? 4 then Ok (Some RGBA)
              else Ok None) ;;
      match m with
      | None => Ok None
      | Some m =>
          img <- Image_fromarray arr m ;;
          img <- (if negb (Image_mode_is_RGB img) then Image_convert_RGB img else Ok img) ;;
          Ok (Some img)
      end
  | _ => Ok None
  end.

Definition load_image (image_blob : PyVal) : option Image :=
  if negb PIL_AVAILABLE then None else
  match
    try_except
      (match image_blob with
       | VBytes b =>
           img <- Image_open_bytes b ;;
           img <- Image_convert_RGB img ;;
           Ok (Some img)
       | VStr p =>
           img <- Image_open_path p ;;
           img <- Image_convert_RGB img ;;
           Ok (Some img)
       | _ => try_except (load_array image_blob) (fun _ => Ok None)
       end)
      (fun _ => Ok None)
  with
  | Ok r => r
  | Raise _ => None
  end.

(** The dict [{"rid": rid, "answer": answer}]. *)
Definition result_record (rid : PyVal) (answer : str) : PyVal :=
  VDict [(py "rid", rid); (py "answer", VStr answer)].

(** The identifier of a record is the value under its key [rid]. *)
Definition process_item (item : PyVal) : result PyVal :=
  rid <- get item (py "rid") VNone ;;
  question <- get item (py "question") (VStr []) ;;
  image_blob <- get item (py "image") VNone ;;
  let _ := load_image image_blob in
  question_text <- as_str question ;;
  let options := parse_options question_text in
  let answer := baseline_heuristic question_text options in
  Ok (result_record rid answer).

End Records.

(* ================================================================== *)
(** * Batch driver                                                     *)
(* ================================================================== *)

(** The files the driver touches: what [pickle.load] gives for the input
    path, and whether [json.dump] of the results to the output path
    succeeds. *)
Record Env := {
  pickle_load : result PyVal;
  json_dump : list PyVal -> result unit
}.

(** A message on standard error. *)
Inductive diag : Type :=
| FailedRead (e : exn)
| NotAList
| ErrorProcessing (rid : PyVal) (e : exn)
| FailedWrite (e : exn)
| Traceback (e : exn).

(** How [main] ends. *)
Inductive termination : Type :=
| Returned
| SysExit (code : Z)
| Uncaught (e : exn).

Record Run := {
  stderr : list diag;
  written : option (list PyVal);
  term : termination
}.

Section Driver.
Context {cd : CaseData} {il : ImageLib}.

(** The answer of a mapping: its question field, when that is a string,
    decides it. *)
Definition answer_of (d : list (str * PyVal)) : result str :=
  q <- as_str (match lookup (py "question") d with Some v => v | None => VStr [] end) ;;
  Ok (baseline_heuristic q (parse_options q)).

Definition rid_of (d : list (str * PyVal)) : PyVal :=
  match lookup (py "rid") d with Some v => v | None => VNone end.

(** The body of the [try] in the loop of [main]. *)
Definition checked_item (item : PyVal) : result PyVal :=
  res <- process_item item ;;
  if negb (has_key (py "rid") res) || negb (has_key (py "answer") res)
  then Raise ValueError
  else Ok res.

(** One iteration of the loop: what it appends to [results] and what it
    prints, or the exception that leaves the handler. *)
Definition iteration (item : PyVal) : result (list PyVal * list diag) :=
  match checked_item item with
  | Ok res => Ok ([res], [])
  | Raise e =>
      rid <- get item (py "rid") VNone ;;
      Ok (if negb (is_None rid) then [result_record rid []] else [],
          [ErrorProcessing rid e])
  end.

Fixpoint main_loop (data results : list PyVal) (err : list diag)
  : result (list PyVal) * list diag :=
  match data with
  | [] => (Ok results, err)
  | item :: data' =>
      match iteration item with
      | Ok (out, msgs) => main_loop data' (results ++ out) (err ++ msgs)
      | Raise e => (Raise e, err)
      end
  end.

(** [main], from after the parsing of the command line. *)
Definition main (env : Env) : Run :=
  match pickle_load env with
  | Raise e => {| stderr := [FailedRead e]; written := None; term := SysExit 1 |}
  | Ok data =>
      match data with
      | VList items =>
          match main_loop items [] [] with
          | (Raise e, err) => {| stderr := err; written := None; term := Uncaught e |}
          | (Ok results, err) =>
              match json_dump env results with
              | Raise e =>
                  {| stderr := err ++ [FailedWrite e]; written := None; term := SysExit 1 |}
              | Ok _ => {| stderr := err; written := Some results; term := Returned |}
              end
          end
      | _ => {| stderr := [NotAList]; written := None; term := SysExit 1 |}
      end
  end.

(** Running the script: the interpreter turns an exception that leaves
    [main] into a traceback on standard error and exit status 1. *)
Definition run_script (env : Env) : Z * list diag :=
  let r := main env in
  match term r with
  | Returned => (0%Z, stderr r)
  | SysExit code => (code, stderr r)
  | Uncaught e => (1%Z, stderr r ++ [Traceback e])
  end.

(** The results the loop collects when no iteration lets an exception
    escape. *)
Definition results_of (items : list PyVal) : list PyVal :=
  match fst (main_loop items [] []) with
  | Ok results => results
  | Raise _ => []
  end.

End Driver.

(** The value is a mapping: a dict. *)
Definition is_mapping (v : PyVal) : bool :=
  match v with VDict _ => true | _ => false end.

(* ================================================================== *)
(** * The rules of the decision cascade, as the specification words them *)
(* ================================================================== *)

Section SpecWords.
Context {cd : CaseData}.

(** Liquid-level classification as specified: both tokens [h1] and [h2]
    in the normalized question, and the word [level] in the lower-cased
    question. *)
Definition spec_liquid_level (q : str) : bool :=
  Py.contains (py "h1") (normalize_equation q)
  && Py.contains (py "h2") (normalize_equation q)
  && Py.contains (py "level") (lower q).

(** An option states the equality: its normalized text contains [h1=h2]. *)
Definition states_equality (o : Option) : bool :=
  Py.contains (py "h1=h2") (normalize_equation (snd o)).

(** An option's text contains, in any case, [cannot be determined]. *)
Definition says_cannot_be_determined (o : Option) : bool :=
  Py.contains (py "cannot be determined") (lower (snd o)).

(** Rule 1 fires: the code's classification holds and some option states
    the equality. *)
Definition rule1_fires (q : str) (opts : list Option) : bool :=
  looks_like_liquid q && existsb states_equality opts.

(** The precondition of rule 2. *)
Definition indeterminate (opts : list Option) : bool :=
  existsb (fun o => Py.contains (py "h1>h2") (normalize_equation (snd o))) opts
  && existsb (fun o => Py.contains (py "h2>h1") (normalize_equation (snd o))) opts
  && negb (existsb states_equality opts)
  && existsb says_cannot_be_determined opts.

(** Rules 3 and 4: the letter of the first option, or the empty string. *)
Definition default_rule (opts : list Option) : str :=
  match opts with
  | o :: _ => fst o
  | [] => []
  end.

(** Rules 2 to 4: what the cascade yields once rule 1 is out. *)
Definition later_rules (opts : list Option) : str :=
  if indeterminate opts
  then Py.join (Py.sorted (Py.set (map fst (filter says_cannot_be_determined opts))))
  else default_rule opts.

End SpecWords.

(* ================================================================== *)
(** * What the proofs ask of the case tables, and concrete parameters  *)
(* ================================================================== *)

(** Lower-casing is stable: a code point in the lower-case mapping of a
    non-ASCII code point is its own lower case and is not the capital sigma,
    and so are the two small sigmas.  (CPython's tables satisfy this.) *)
Class CaseLaws (cd : CaseData) : Prop := {
  lower_stable :
    forall c d, 128 <= c -> In d (to_lower_full c) ->
                lower_char d = [d] /\ d <> CAPITAL_SIGMA;
  small_sigma_stable : lower_char SMALL_SIGMA = [SMALL_SIGMA];
  final_sigma_stable : lower_char SMALL_FINAL_SIGMA = [SMALL_FINAL_SIGMA]
}.

Section Stability.
Context {cd : CaseData}.

(** A character lower-casing leaves alone. *)
Definition stable (c : N) : Prop := lower_char c = [c] /\ c <> CAPITAL_SIGMA.

(** A character normalization leaves alone. *)
Definition clean (c : N) : Prop :=
  stable c /\ Py.is_space c = false /\
  c <> SUBSCRIPT_ONE /\ c <> SUBSCRIPT_TWO /\
  c <> FULLWIDTH_EQUALS /\ c <> NOT_EQUAL_TO /\
  c <> LESS_EQUAL /\ c <> GREATER_EQUAL /\
  c <> LESS_SLANTED_EQUAL /\ c <> GREATER_SLANTED_EQUAL.

End Stability.

Definition in_range (lo hi c : N) : bool := (lo <=? c) && (c <=? hi).

(** A small instance of the case tables: Unicode's entries for
    U+0000-U+00FF, the combining marks U+0300-U+036F, the Greek letters
    U+0391-U+03A9 and U+03B1-U+03C9 and the Cyrillic letters U+0400-U+045F;
    every other code point is left caseless. *)
Definition small_to_lower_full (c : N) : list N :=
  if in_range 0x41 0x5a c then [c + 32]
  else if in_range 0xc0 0xde c && negb (c =? 0xd7) then [c + 32]
  else if in_range 0x391 0x3a9 c && negb (c =? 0x3a2) then [c + 32]
  else if in_range 0x400 0x40f c then [c + 80]
  else if in_range 0x410 0x42f c then [c + 32]
  else [c].

Definition small_is_cased (c : N) : bool :=
  in_range 0x41 0x5a c || in_range 0x61 0x7a c
  || (c =? 0xaa) || (c =? 0xb5) || (c =? 0xba)
  || in_range 0xc0 0xd6 c || in_range 0xd8 0xf6 c || in_range 0xf8 0xff c
  || (in_range 0x391 0x3a9 c && negb (c =? 0x3a2)) || in_range 0x3b1 0x3c9 c
  || in_range 0x400 0x45f c.

Definition small_is_case_ignorable (c : N) : bool :=
  (c =? 0x27) || (c =? 0x2e) || (c =? 0x3a) || (c =? 0x5e) || (c =? 0x60)
  || (c =? 0xa8) || (c =? 0xad) || (c =? 0xaf) || (c =? 0xb4) || (c =? 0xb7)
  || (c =? 0xb8) || in_range 0x300 0x36f c.

Definition small_case_data : CaseData := {|
  to_lower_full := small_to_lower_full;
  is_cased := small_is_cased;
  is_case_ignorable := small_is_case_ignorable
|}.

(** An interpreter without PIL. *)
Definition no_PIL : ImageLib := {|
  PIL_AVAILABLE := false;
  numpy_importable := false;
  Image := unit;
  Image_open_bytes := fun _ => Raise ImportError;
  Image_open_path := fun _ => Raise ImportError;
  Image_convert_RGB := fun _ => Raise ImportError;
  Image_fromarray := fun _ _ => Raise ImportError;
  Image_mode_is_RGB := fun _ => false
|}.

(** An image library that decodes every non-empty byte string and every
    array, and finds no file. *)
Definition toy_PIL : ImageLib := {|
  PIL_AVAILABLE := true;
  numpy_importable := true;
  Image := list N;
  Image_open_bytes :=
    fun b => match b with [] => Raise (OtherError "UnidentifiedImageError") | _ => Ok b end;
  Image_open_path := fun _ => Raise (OtherError "FileNotFoundError");
  Image_convert_RGB := fun img => Ok img;
  Image_fromarray := fun a _ => Ok (buffer a);
  Image_mode_is_RGB := fun _ => true
|}.

(* ================================================================== *)
(** * Inputs of the scenarios                                          *)
(* ================================================================== *)

Module Examples.

Definition three_options : str :=
  py "A. foo" ++ [LF] ++ py "B. bar" ++ [LF] ++ py "C. baz".

(** Scenario A of the specification. *)
Definition question_A : str :=
  py "In the two connected vessels, compare the liquid levels h1 and h2.".
Definition options_A : list Option :=
  [(py "A", py "h1 > h2"); (py "B", py "h1 < h2"); (py "C", py "h1 = h2")].

(** Scenario B of the specification. *)
Definition question_B : str := py "Compare h1 and h2 in the tubes.".
Definition options_B : list Option :=
  [(py "A", py "h1>h2"); (py "B", py "h2>h1"); (py "C", py "Cannot be determined")].

Definition two_equalities : list Option := [(py "A", py "h1=h2"); (py "C", py "h1=h2")].

(** A question that names one level only. *)
Definition question_h1 : str := py "What is the level h1 of the liquid?".
Definition options_h1 : list Option := [(py "A", py "foo"); (py "B", py "h1=h2")].

Definition record_1 : PyVal :=
  VDict [(py "rid", VInt 1); (py "question", VStr three_options);
         (py "image", VBytes [137; 80; 78; 71])].
Definition record_no_question_text : list (str * PyVal) :=
  [(py "rid", VInt 7); (py "question", VNone)].
Definition record_no_rid : list (str * PyVal) :=
  [(py "question", VStr three_options)].

End Examples.

(* ================================================================== *)
(** * Formats of questions and of the driver's messages                *)
(* ================================================================== *)

Definition SPACE : N := 32.

(** A one-line option text: not empty, no line break inside, no whitespace
    at either end. *)
Definition plain_text (t : str) : bool :=
  match t with
  | [] => false
  | c :: _ =>
      negb (Py.is_space c) && negb (Py.is_space (last t c))
      && forallb (fun x => negb (x =? LF) && negb (x =? CR)) t
  end.

(** The options written one per line, each as its letter, a period, a
    space and its text, the lines separated by line feeds. *)
Fixpoint option_lines (opts : list (N * str)) : str :=
  match opts with
  | [] => []
  | (c, t) :: more =>
      c :: DOT :: SPACE :: t
      ++ match more with
         | [] => []
         | _ :: _ => LF :: option_lines more
         end
  end.

(** An option that can be written on a line: an option letter and a plain
    text. *)
Definition well_formed (o : N * str) : bool :=
  is_option_letter (fst o) && plain_text (snd o).

(** The text with every line feed written as carriage return, line feed. *)
Definition with_crlf (s : str) : str := Py.replace [LF] [CR; LF] s.

(** The text with every line feed written as a carriage return. *)
Definition with_cr (s : str) : str := Py.replace [LF] [CR] s.

Section Messages.
Context {cd : CaseData} {il : ImageLib}.

(** What the loop of the driver prints for one mapping: nothing when the
    record is processed, one line with its id and the exception otherwise. *)
Definition failure_message (d : list (str * PyVal)) : list diag :=
  match process_item (VDict d) with
  | Ok _ => []
  | Raise e => [ErrorProcessing (rid_of d) e]
  end.

End Messages.

(** The dict of a mapping, and no entries for another value. *)
Definition entries (v : PyVal) : list (str * PyVal) :=
  match v with VDict d => d | _ => [] end.

Module MoreExamples.
Import Examples.

(** A stem and two options written under it. *)
Definition stem : str := py "Which vessel holds more water?".
Definition two_options : list (N * str) :=
  [(65, py "the left one"); (66, py "the right one, by far")].

(** A batch of three mappings that is loaded and whose results can be
    written. *)
Definition batch : list PyVal :=
  [record_1; VDict record_no_question_text; VDict record_no_rid].
Definition sample_env : Env :=
  {| pickle_load := Ok (VList batch); json_dump := fun _ => Ok tt |}.
Definition batch_results : list PyVal :=
  [result_record (VInt 1) (py "A"); result_record (VInt 7) [];
   result_record VNone (py "A")].

(** Two mappings with ids. *)
Definition identified_batch : list PyVal := [record_1; VDict record_no_question_text].
Definition identified_env : Env :=
  {| pickle_load := Ok (VList identified_batch); json_dump := fun _ => Ok tt |}.

(** A batch in which a value that is no mapping follows a mapping with an
    id, and one in which it follows a mapping without an id; the results
    could be written. *)
Definition batch_with_number : list PyVal := [record_1; VInt 3].
Definition env_with_number : Env :=
  {| pickle_load := Ok (VList batch_with_number); json_dump := fun _ => Ok tt |}.
Definition batch_with_string : list PyVal := [VDict record_no_rid; VStr (py "oops")].
Definition env_with_string : Env :=
  {| pickle_load := Ok (VList batch_with_string); json_dump := fun _ => Ok tt |}.

(** A batch of mappings in which a record without a string question
    stands between two others. *)
Definition env_around (d : list (str * PyVal)) : Env :=
  {| pickle_load := Ok (VList ([record_1] ++ VDict d :: [VDict record_no_rid]));
     json_dump := fun _ => Ok tt |}.

End MoreExamples.

(* ================================================================== *)
(** * Facts about the string runtime                                   *)
(* ================================================================== *)

Module PyFacts.
Import Py.

Lemma compare_eq_iff (a b : str) : compare a b = Eq <-> a = b.
Proof.
  revert b; induction a as [|x a IH]; intros [|y b]; simpl; split;
    try congruence; try reflexivity.
  - destruct (N.compare_spec x y); try discriminate.
    intros H'. apply IH in H'. congruence.
  - intros [= -> ->]. rewrite N.compare_refl. now apply IH.
Qed.

Lemma compare_antisym (a b : str) : compare b a = CompOpp (compare a b).
Proof.
  revert b; induction a as [|x a IH]; intros [|y b]; simpl; try reflexivity.
  rewrite (N.compare_antisym x y).
  destruct (x ?= y); simpl; auto.
Qed.

Lemma lt_trans (a b c : str) : lt a b -> lt b c -> lt a c.
Proof.
  unfold lt. revert b c; induction a as [|x a IH]; intros [|y b] [|z c];
    simpl; try congruence.
  destruct (N.compare_spec x y) as [->|Hxy|Hxy]; try discriminate.
  - destruct (y ?= z); try discriminate; eauto.
  - destruct (N.compare_spec y z) as [->|Hyz|Hyz]; try discriminate; intros _ _.
    + apply N.compare_lt_iff in Hxy. now rewrite Hxy.
    + assert (H : x < z) by lia. apply N.compare_lt_iff in H. now rewrite H.
Qed.

Lemma eqb_eq (a b : str) : eqb a b = true <-> a = b.
Proof.
  unfold eqb. rewrite <- compare_eq_iff. destruct (compare a b); split; congruence.
Qed.

Lemma leb_false_lt (a b : str) : leb a b = false -> lt b a.
Proof.
  unfold leb, lt. rewrite (compare_antisym a b).
  destruct (compare a b); simpl; congruence.
Qed.

Lemma leb_neq_lt (a b : str) : leb a b = true -> a <> b -> lt a b.
Proof.
  unfold leb, lt. intros H Hne.
  destruct (compare a b) eqn:E; try congruence.
  apply compare_eq_iff in E. contradiction.
Qed.

Lemma in_set (x : str) (xs : list str) : In x (set xs) <-> In x xs.
Proof.
  induction xs as [|y xs IH]; simpl; [tauto|].
  destruct (existsb (eqb y) xs) eqn:E; simpl; rewrite IH; [|tauto].
  split; [tauto|]. intros [<-|H]; [|assumption].
  apply existsb_exists in E. destruct E as [z [Hz Hyz]].
  apply eqb_eq in Hyz. now subst z.
Qed.

Lemma NoDup_set (xs : list str) : NoDup (set xs).
Proof.
  induction xs as [|y xs IH]; simpl; [constructor|].
  destruct (existsb (eqb y) xs) eqn:E; [assumption|].
  constructor; [|assumption].
  rewrite in_set. intros Hin.
  assert (existsb (eqb y) xs = true); [|congruence].
  apply existsb_exists. exists y. split; [assumption|]. now apply eqb_eq.
Qed.

Lemma in_insort (x y : str) (l : list str) : In y (insort x l) <-> y = x \/ In y l.
Proof.
  induction l as [|z l IH]; simpl.
  - intuition congruence.
  - destruct (leb x z); simpl; [intuition congruence|].
    rewrite IH. intuition congruence.
Qed.

Lemma in_sorted (y : str) (l : list str) : In y (sorted l) <-> In y l.
Proof.
  induction l as [|x l IH]; simpl; [tauto|].
  rewrite in_insort, IH. intuition congruence.
Qed.

Lemma insort_strict (x : str) (l : list str) :
  StronglySorted lt l -> ~ In x l -> StronglySorted lt (insort x l).
Proof.
  induction 1 as [|z l Hl IH Hz]; simpl; intros Hnin.
  - repeat constructor.
  - destruct (leb x z) eqn:E.
    + assert (Hxz : lt x z) by (apply leb_neq_lt; [assumption | intuition congruence]).
      constructor; [now constructor|].
      constructor; [assumption|].
      eapply Forall_impl; [|exact Hz]. intros a Ha. eapply lt_trans; eassumption.
    + constructor; [apply IH; tauto|].
      apply Forall_forall. intros a Ha. apply in_insort in Ha. destruct Ha as [->|Ha].
      * now apply leb_false_lt.
      * rewrite Forall_forall in Hz. now apply Hz.
Qed.

Lemma sorted_strict (l : list str) : NoDup l -> StronglySorted lt (sorted l).
Proof.
  induction 1 as [|x l Hx Hl IH]; simpl; [constructor|].
  apply insort_strict; [assumption|]. now rewrite in_sorted.
Qed.

(** [sorted(set(xs))]: strictly ascending, with the elements of [xs]. *)
Lemma sorted_set_spec (xs : list str) :
  StronglySorted lt (sorted (set xs)) /\
  forall x, In x (sorted (set xs)) <-> In x xs.
Proof.
  split; [apply sorted_strict, NoDup_set|].
  intros x. now rewrite in_sorted, in_set.
Qed.

(** Replacing a single character is a character-wise substitution. *)
Lemma replace_char (a : N) (new s : str) :
  replace [a] new s = flat_map (fun c => if a =? c then new else [c]) s.
Proof.
  unfold replace. induction s as [|c s IH]; simpl; [reflexivity|].
  rewrite IH. destruct (a =? c); reflexivity.
Qed.

Lemma replace_absent (a : N) (new s : str) :
  Forall (fun c => c <> a) s -> replace [a] new s = s.
Proof.
  rewrite replace_char. induction 1 as [|c s Hc Hs IH]; simpl; [reflexivity|].
  rewrite IH. destruct (N.eqb_spec a c); [congruence|reflexivity].
Qed.

Lemma replace_Forall (P : N -> Prop) (a : N) (new s : str) :
  Forall P new -> Forall P s -> Forall P (replace [a] new s).
Proof.
  intros Hnew. rewrite replace_char.
  induction 1 as [|c s Hc Hs IH]; simpl; [constructor|].
  apply Forall_app. split; [|assumption].
  destruct (a =? c); [assumption|now constructor].
Qed.

Lemma replace_removes (a : N) (new s : str) :
  Forall (fun c => c <> a) new -> Forall (fun c => c <> a) (replace [a] new s).
Proof.
  intros Hnew. rewrite replace_char.
  induction s as [|c s IH]; simpl; [constructor|].
  apply Forall_app. split; [|assumption].
  destruct (N.eqb_spec a c); [assumption|]. constructor; [congruence|constructor].
Qed.

Lemma remove_spaces_no_space (s : str) :
  Forall (fun c => is_space c = false) (remove_spaces s).
Proof.
  unfold remove_spaces. apply Forall_forall. intros c Hc.
  apply filter_In in Hc. destruct Hc as [_ Hc]. now apply negb_true_iff.
Qed.

Lemma remove_spaces_Forall (P : N -> Prop) (s : str) :
  Forall P s -> Forall P (remove_spaces s).
Proof.
  unfold remove_spaces. rewrite !Forall_forall. intros H c Hc.
  apply filter_In in Hc. now apply H.
Qed.

Lemma remove_spaces_absent (s : str) :
  Forall (fun c => is_space c = false) s -> remove_spaces s = s.
Proof.
  unfold remove_spaces. induction 1 as [|c s Hc Hs IH]; simpl; [reflexivity|].
  rewrite Hc, IH. reflexivity.
Qed.

(** What [lstrip] and [strip] return is a piece of their argument. *)
Lemma lstrip_suffix (s : str) : exists p, s = p ++ lstrip s.
Proof.
  induction s as [|c s [p IH]]; simpl; [now exists []|].
  destruct (is_space c); [|now exists []].
  exists (c :: p). simpl. congruence.
Qed.

Lemma strip_infix (s : str) : exists p q, s = p ++ strip s ++ q.
Proof.
  unfold strip, rstrip.
  destruct (lstrip_suffix s) as [p Hp].
  destruct (lstrip_suffix (rev (lstrip s))) as [q Hq].
  exists p, (rev q).
  rewrite <- rev_app_distr, <- Hq, rev_involutive. exact Hp.
Qed.

Lemma truthy_filter {A} (f : A -> bool) (l : list A) :
  truthy (filter f l) = existsb f l.
Proof.
  induction l as [|a l IH]; simpl; [reflexivity|].
  destruct (f a); simpl; [reflexivity|assumption].
Qed.

Lemma truthy_map {A B} (f : A -> B) (l : list A) : truthy (map f l) = truthy l.
Proof. destruct l; reflexivity. Qed.

Lemma in_join (c : N) (parts : list str) :
  In c (join parts) <-> exists p, In p parts /\ In c p.
Proof.
  unfold join. rewrite in_concat. split; intros [p Hp]; exists p; tauto.
Qed.

End PyFacts.

(* ================================================================== *)
(** * The decision engine                                              *)
(* ================================================================== *)

Section DecisionFacts.
Context {cd : CaseData}.
Import PyFacts.

Let norm (o : Option) : Option := (fst o, normalize_equation (snd o)).

Lemma existsb_norm (sub : str) (opts : list Option) :
  existsb (fun o => Py.contains sub (snd o)) (map norm opts)
  = existsb (fun o => Py.contains sub (normalize_equation (snd o))) opts.
Proof.
  induction opts as [|o opts IH]; simpl; [reflexivity|]. now rewrite IH.
Qed.

Lemma filter_norm (opts : list Option) :
  map fst (filter (fun o => Py.contains (py "h1=h2") (snd o)) (map norm opts))
  = map fst (filter states_equality opts).
Proof.
  induction opts as [|o opts IH]; simpl; [reflexivity|].
  unfold states_equality at 1.
  destruct (Py.contains (py "h1=h2") (normalize_equation (snd o))); simpl;
    now rewrite IH.
Qed.

Lemma truthy_filter_norm (opts : list Option) :
  Py.truthy (filter (fun o => Py.contains (py "h1=h2") (snd o)) (map norm opts))
  = existsb states_equality opts.
Proof.
  rewrite <- (truthy_map fst), filter_norm, truthy_map. apply truthy_filter.
Qed.

Lemma andb_rotate (a b c d : bool) : d && a && b && c = a && b && c && d.
Proof. destruct a, b, c, d; reflexivity. Qed.

(** The code is the cascade: rule 1, else rule 2, else the default. *)
Lemma baseline_heuristic_cascade (q : str) (opts : list Option) :
  baseline_heuristic q opts =
  if rule1_fires q opts
  then Py.join (Py.sorted (Py.set (map fst (filter states_equality opts))))
  else later_rules opts.
Proof.
  unfold baseline_heuristic, rule1_fires, later_rules, indeterminate.
  fold norm.
  rewrite truthy_filter_norm, filter_norm, !existsb_norm, truthy_map, truthy_filter.
  fold says_cannot_be_determined.
  destruct (looks_like_liquid q && existsb states_equality opts); [reflexivity|].
  rewrite andb_rotate.
  reflexivity.
Qed.

(** The letters rule 1 or rule 2 returns: strictly ascending, and exactly
    the letters of the options that satisfy [sel]. *)
Lemma selected_letters (sel : Option -> bool) (opts : list Option) :
  StronglySorted Py.lt (Py.sorted (Py.set (map fst (filter sel opts)))) /\
  forall l, In l (Py.sorted (Py.set (map fst (filter sel opts)))) <->
            exists t, In (l, t) opts /\ sel (l, t) = true.
Proof.
  destruct (sorted_set_spec (map fst (filter sel opts))) as [Hs Hin].
  split; [assumption|]. intros l. rewrite Hin, in_map_iff. split.
  - intros [[l' t] [<- Ho]]. apply filter_In in Ho. exists t. exact Ho.
  - intros [t Ho]. exists (l, t). split; [reflexivity|]. now apply filter_In.
Qed.

(** The specified classification implies the one of the code. *)
Lemma spec_liquid_level_looks_like_liquid (q : str) :
  spec_liquid_level q = true -> looks_like_liquid q = true.
Proof.
  unfold spec_liquid_level, looks_like_liquid. simpl.
  destruct (Py.contains (py "h1") (normalize_equation q)); simpl; [|discriminate].
  destruct (Py.contains (py "h2") (normalize_equation q)); simpl; [|discriminate].
  auto.
Qed.

(** C1, amended.  The question is classified as a liquid-level comparison
    exactly when its normalization contains at least one of the tokens
    [h1] and [h2] and its lower-cased text contains [level]; when the
    normalization contains neither token, rule 1 does not fire and the
    decision is that of the later rules. *)
Theorem C1_liquid_level_needs_one_token (q : str) (opts : list Option) :
  (looks_like_liquid q = true <->
     (Py.contains (py "h1") (normalize_equation q) = true \/
      Py.contains (py "h2") (normalize_equation q) = true) /\
     Py.contains (py "level") (lower q) = true)
  /\
  (Py.contains (py "h1") (normalize_equation q) = false ->
   Py.contains (py "h2") (normalize_equation q) = false ->
   rule1_fires q opts = false /\ baseline_heuristic q opts = later_rules opts).
Proof.
  split.
  - unfold looks_like_liquid. simpl.
    rewrite andb_true_iff, !orb_true_iff. intuition discriminate.
  - intros H1 H2.
    assert (Hr : rule1_fires q opts = false)
      by (unfold rule1_fires, looks_like_liquid; simpl; now rewrite H1, H2).
    split; [assumption|].
    now rewrite baseline_heuristic_cascade, Hr.
Qed.

(** C5.  When the question is classified as a liquid-level comparison and
    some option's normalized text contains [h1=h2], the decision is the
    concatenation of a strictly ascending (hence duplicate-free) list of
    letters: exactly the letters of all options whose normalized text
    contains [h1=h2]. *)
Theorem C5_equality_rule_returns_all_equal_letters
    (q : str) (opts : list Option) :
  looks_like_liquid q = true ->
  existsb (fun o => Py.contains (py "h1=h2") (normalize_equation (snd o))) opts = true ->
  exists letters : list str,
    baseline_heuristic q opts = Py.join letters /\
    StronglySorted Py.lt letters /\
    forall l, In l letters <->
              exists t, In (l, t) opts /\
                        Py.contains (py "h1=h2") (normalize_equation t) = true.
Proof.
  intros Hq Heq.
  exists (Py.sorted (Py.set (map fst (filter states_equality opts)))).
  split; [|apply selected_letters].
  change (existsb states_equality opts = true) in Heq.
  rewrite baseline_heuristic_cascade. unfold rule1_fires.
  now rewrite Hq, Heq.
Qed.

(** C6.  When rule 1 does not fire: if some option's normalized text
    contains [h1>h2], some contains [h2>h1], none contains [h1=h2] and
    some option's text contains, in any case, [cannot be determined], the
    decision is the concatenation of the strictly ascending list of the
    letters of all options containing that phrase; otherwise it is the
    default rule's: the first option's letter, or the empty string. *)
Theorem C6_indeterminacy_rule (q : str) (opts : list Option) :
  rule1_fires q opts = false ->
  (existsb (fun o => Py.contains (py "h1>h2") (normalize_equation (snd o))) opts
   && existsb (fun o => Py.contains (py "h2>h1") (normalize_equation (snd o))) opts
   && negb (existsb (fun o => Py.contains (py "h1=h2") (normalize_equation (snd o))) opts)
   && existsb (fun o => Py.contains (py "cannot be determined") (lower (snd o))) opts
   = true ->
   exists letters : list str,
     baseline_heuristic q opts = Py.join letters /\
     StronglySorted Py.lt letters /\
     forall l, In l letters <->
               exists t, In (l, t) opts /\
                         Py.contains (py "cannot be determined") (lower t) = true)
  /\
  (existsb (fun o => Py.contains (py "h1>h2") (normalize_equation (snd o))) opts
   && existsb (fun o => Py.contains (py "h2>h1") (normalize_equation (snd o))) opts
   && negb (existsb (fun o => Py.contains (py "h1=h2") (normalize_equation (snd o))) opts)
   && existsb (fun o => Py.contains (py "cannot be determined") (lower (snd o))) opts
   = false ->
   baseline_heuristic q opts = match opts with o :: _ => fst o | [] => [] end).
Proof.
  intros Hr. rewrite baseline_heuristic_cascade, Hr.
  unfold later_rules. split; intros Hc.
  - change (indeterminate opts = true) in Hc. rewrite Hc.
    exists (Py.sorted (Py.set (map fst (filter says_cannot_be_determined opts)))).
    split; [reflexivity|]. apply selected_letters.
  - change (indeterminate opts = false) in Hc. now rewrite Hc.
Qed.

End DecisionFacts.

(* ================================================================== *)
(** * The option extractor                                             *)
(* ================================================================== *)

Module ExtractFacts.
Import PyFacts.

Lemma has_letter_dot_cons (c d : N) (s : str) :
  has_letter_dot (c :: d :: s)
  = (is_option_letter c && (d =? DOT)) || has_letter_dot (d :: s).
Proof. reflexivity. Qed.

Lemma has_letter_dot_iff (s : str) : has_letter_dot s = true <-> letter_dot s.
Proof.
  induction s as [|c s IH].
  - split; [discriminate|]. intros [[|? ?] [? [? [? _]]]]; discriminate.
  - destruct s as [|d s].
    + split; [discriminate|].
      intros [[|? [|? ?]] [? [? [? _]]]]; discriminate.
    + rewrite has_letter_dot_cons, orb_true_iff, andb_true_iff, IH. split.
      * intros [[Hc Hd]|[a [c' [b [E Hc']]]]].
        -- apply N.eqb_eq in Hd. subst d. now exists [], c, s.
        -- exists (c :: a), c', b. simpl. now rewrite E.
      * intros [[|x a] [c' [b [E Hc']]]]; simpl in E; inversion E; subst.
        -- left. now rewrite N.eqb_refl.
        -- right. now exists a, c', b.
Qed.

Lemma letter_dot_infix (p s q : str) : letter_dot s -> letter_dot (p ++ s ++ q).
Proof.
  intros [a [c [b [-> Hc]]]]. exists (p ++ a), c, (b ++ q).
  split; [|assumption]. now rewrite <- !app_assoc.
Qed.

Lemma no_letter_dot_tail (c : N) (s : str) :
  has_letter_dot (c :: s) = false -> has_letter_dot s = false.
Proof.
  destruct s as [|d s]; [reflexivity|].
  rewrite has_letter_dot_cons. now intros [_ H]%orb_false_iff.
Qed.

Lemma no_letter_dot_head (c d : N) (s : str) :
  has_letter_dot (c :: d :: s) = false -> is_option_letter c && (d =? DOT) = false.
Proof. rewrite has_letter_dot_cons. now intros [H _]%orb_false_iff. Qed.

(** A match of the pattern starts with an option letter and a period. *)
Lemma match_option_letter (s : str) (c : N) (body : str) (n : nat) :
  match_option s = Some (c, body, n) ->
  is_option_letter c = true /\ exists s', s = c :: DOT :: s'.
Proof.
  destruct s as [|x [|d s']]; simpl; try discriminate.
  destruct (is_option_letter x && (d =? DOT)) eqn:E; [|discriminate].
  intros [= <- _ _]. apply andb_true_iff in E. destruct E as [Hx Hd].
  apply N.eqb_eq in Hd. subst d. eauto.
Qed.

Lemma findall_from_letters (s : str) (skip : nat) (m : str * str) :
  In m (findall_from s skip) ->
  exists c, fst m = [c] /\ is_option_letter c = true.
Proof.
  revert skip; induction s as [|x s IH]; intros skip; [contradiction|].
  cbn [findall_from]. destruct skip as [|k]; [|apply IH].
  destruct (match_option (x :: s)) as [[[c body] n]|] eqn:E; [|apply IH].
  intros [<-|Hin]; [|eapply IH; eassumption].
  apply match_option_letter in E. exists c. tauto.
Qed.

Lemma findall_from_none (s : str) (skip : nat) :
  has_letter_dot s = false -> findall_from s skip = [].
Proof.
  revert skip; induction s as [|x s IH]; intros skip H; [reflexivity|].
  pose proof (no_letter_dot_tail _ _ H) as Ht.
  cbn [findall_from]. destruct skip as [|k]; [|now apply IH].
  destruct (match_option (x :: s)) as [[[c body] n]|] eqn:E; [|now apply IH].
  apply match_option_letter in E. destruct E as [Hc [s' E]].
  injection E as -> ->. apply no_letter_dot_head in H.
  rewrite Hc, N.eqb_refl in H. discriminate.
Qed.

(** The encoding of the resumption point: dropping [skip] characters. *)
Lemma findall_from_skipn (s : str) (skip : nat) :
  findall_from s skip = findall (skipn skip s).
Proof.
  unfold findall. revert skip; induction s as [|x s IH]; intros [|k];
    try reflexivity. cbn [findall_from skipn]. apply IH.
Qed.

(** [findall] resumes the search where the match ended. *)
Lemma findall_unfold (s : str) :
  findall s =
  match match_option s with
  | Some (c, body, n) => ([c], body) :: findall (skipn n s)
  | None => match s with [] => [] | _ :: s' => findall s' end
  end.
Proof.
  destruct s as [|x s]; [reflexivity|].
  unfold findall at 1. cbn [findall_from].
  destruct (match_option (x :: s)) as [[[c body] n]|] eqn:E; [|reflexivity].
  rewrite findall_from_skipn.
  destruct n as [|n]; [|now rewrite Nat.sub_succ, Nat.sub_0_r].
  destruct s as [|d s]; [discriminate|]. simpl in E.
  destruct (is_option_letter x && (d =? DOT)); discriminate.
Qed.

Lemma match_line_letter (l : str) (m : str * str) :
  match_line l = Some m ->
  (exists c, fst m = [c] /\ is_option_letter c = true) /\ letter_dot l.
Proof.
  unfold match_line. destruct (lstrip_suffix l) as [p Hp].
  destruct (Py.lstrip l) as [|c [|d rest]]; try discriminate.
  destruct (is_option_letter c && (d =? DOT)) eqn:E; [|discriminate].
  apply andb_true_iff in E. destruct E as [Hc Hd]. apply N.eqb_eq in Hd. subst d.
  destruct (spaces_dot_plus_end _ rest); [|discriminate].
  intros [= <-]. split; [now exists c|]. now exists p, c, rest.
Qed.

(** Lines are pieces of the text. *)
Lemma split_lines_first (s : str) (d : N) (l : str) (ls : list str) :
  Py.split_lines s = (d :: l) :: ls -> exists s', s = d :: s'.
Proof.
  destruct s as [|c s]; simpl; [discriminate|].
  destruct (c =? LF); [discriminate|].
  destruct (Py.split_lines s); intros [= -> _]; eauto.
Qed.

Lemma split_lines_no_letter_dot (s : str) :
  has_letter_dot s = false ->
  Forall (fun l => has_letter_dot l = false) (Py.split_lines s).
Proof.
  induction s as [|c s IH]; intros H; simpl; [repeat constructor|].
  specialize (IH (no_letter_dot_tail _ _ H)).
  destruct (c =? LF); [now constructor|].
  destruct (Py.split_lines s) as [|l ls] eqn:E; [repeat constructor|].
  inversion IH as [|? ? Hl Hls]; subst. constructor; [|assumption].
  destruct l as [|d l]; [reflexivity|].
  apply split_lines_first in E. destruct E as [s' ->].
  rewrite has_letter_dot_cons, Hl, orb_false_r.
  now apply no_letter_dot_head in H.
Qed.

(** Normalising the line endings creates no letter-period pair. *)
Lemma crlf_no_letter_dot (n : nat) (s : str) (c : N) :
  (List.length s <= n)%nat ->
  has_letter_dot (c :: s) = false ->
  has_letter_dot (c :: Py.replace [CR; LF] [LF] s) = false.
Proof.
  unfold Py.replace. revert s c; induction n as [|n IH]; intros s c Hn H.
  - destruct s; [assumption|simpl in Hn; lia].
  - destruct s as [|x s]; [assumption|]. simpl in Hn.
    cbn [Py.replace_from]. destruct (Py.startswith [CR; LF] (x :: s)) eqn:E.
    + destruct s as [|y s]; cbn [Py.startswith] in E;
        [now rewrite andb_false_r in E|].
      cbn [List.length app Py.replace_from].
      rewrite has_letter_dot_cons.
      replace (LF =? DOT) with false by reflexivity. rewrite andb_false_r.
      apply IH; [simpl in Hn; lia|].
      rewrite !andb_true_iff, !N.eqb_eq in E. destruct E as [_ [<- _]].
      now apply no_letter_dot_tail, no_letter_dot_tail in H.
    + rewrite has_letter_dot_cons in *. apply orb_false_iff in H.
      destruct H as [-> H]. apply IH; [lia|assumption].
Qed.

Lemma cr_no_letter_dot (s : str) (c : N) :
  has_letter_dot (c :: s) = false ->
  has_letter_dot ((if CR =? c then LF else c) :: Py.replace [CR] [LF] s) = false.
Proof.
  rewrite replace_char. revert c; induction s as [|d s IH]; intros c H; [reflexivity|].
  cbn [flat_map].
  replace ((if CR =? d then [LF] else [d])
           ++ flat_map (fun c => if CR =? c then [LF] else [c]) s)
    with ((if CR =? d then LF else d)
          :: flat_map (fun c => if CR =? c then [LF] else [c]) s)
    by (destruct (CR =? d); reflexivity).
  rewrite has_letter_dot_cons in *. apply orb_false_iff in H. destruct H as [H1 H2].
  rewrite (IH _ H2), orb_false_r.
  destruct (N.eqb_spec CR c) as [<-|Hc]; [reflexivity|].
  destruct (N.eqb_spec CR d) as [<-|Hd]; [now rewrite andb_false_r|assumption].
Qed.

(** The text [parse_options] scans has a letter-period pair only if the
    question text has one. *)
Lemma line_endings_no_letter_dot (s : str) :
  has_letter_dot s = false ->
  has_letter_dot (Py.replace [CR] [LF] (Py.replace [CR; LF] [LF] s)) = false.
Proof.
  intros H.
  assert (H1 : has_letter_dot (LF :: Py.replace [CR; LF] [LF] s) = false).
  { apply (crlf_no_letter_dot (List.length s)); [lia|].
    destruct s as [|d s]; [reflexivity|]. now rewrite has_letter_dot_cons, H. }
  apply cr_no_letter_dot in H1. now apply no_letter_dot_tail in H1.
Qed.

End ExtractFacts.

Section ExtractionTheorems.
Context {cd : CaseData}.
Import PyFacts ExtractFacts.

Lemma is_option_letter_range (c : N) :
  is_option_letter c = true <-> (65 <= c <= 90 \/ 0x410 <= c <= 0x42f).
Proof.
  unfold is_option_letter, CYRILLIC_A, CYRILLIC_YA.
  rewrite orb_true_iff, !andb_true_iff, !N.leb_le. tauto.
Qed.

Lemma parse_options_letters (q : str) (o : Option) :
  In o (parse_options q) -> exists c, fst o = [c] /\ is_option_letter c = true.
Proof.
  unfold parse_options.
  destruct (Py.truthy (findall _)).
  - intros [m [<- Hm]]%in_map_iff. simpl. eapply findall_from_letters, Hm.
  - intros [line [_ Hl]]%in_flat_map.
    destruct (match_line (Py.strip line)) as [m|] eqn:E; [|contradiction].
    destruct Hl as [<-|[]]. simpl. now apply match_line_letter in E.
Qed.

Lemma parse_options_none (q : str) :
  has_letter_dot q = false -> parse_options q = [].
Proof.
  intros H. apply line_endings_no_letter_dot in H.
  unfold parse_options, findall. rewrite (findall_from_none _ _ H). simpl.
  apply split_lines_no_letter_dot in H.
  induction H as [|line ls Hl Hls IH]; simpl; [reflexivity|]. rewrite IH.
  destruct (match_line (Py.strip line)) as [m|] eqn:E; [|reflexivity].
  apply match_line_letter in E. destruct E as [_ E].
  destruct (strip_infix line) as [p [r Hp]].
  apply (letter_dot_infix p _ r) in E. rewrite <- Hp in E.
  apply has_letter_dot_iff in E. congruence.
Qed.

(** Every character of the decision is a character of the letter of some
    option. *)
Lemma decision_from_options (q : str) (opts : list Option) (c : N) :
  In c (baseline_heuristic q opts) -> exists o, In o opts /\ In c (fst o).
Proof.
  assert (G : forall sel,
             In c (Py.join (Py.sorted (Py.set (map fst (filter sel opts))))) ->
             exists o, In o opts /\ In c (fst o)).
  { intros sel [l [Hl Hc]]%in_join.
    apply sorted_set_spec, in_map_iff in Hl. destruct Hl as [o [<- Ho]].
    apply filter_In in Ho. exists o. tauto. }
  rewrite baseline_heuristic_cascade. destruct (rule1_fires q opts); [apply G|].
  unfold later_rules. destruct (indeterminate opts); [apply G|].
  destruct opts as [|o opts]; [contradiction|].
  intros Hc. exists o. simpl. tauto.
Qed.

(** C7.  Extraction of the three-line example gives the three options in
    order, and a text without a letter directly followed by a period gives
    no option and the empty decision. *)
Theorem C7_extraction_of_examples :
  parse_options (py "A. foo" ++ [LF] ++ py "B. bar" ++ [LF] ++ py "C. baz")
  = [(py "A", py "foo"); (py "B", py "bar"); (py "C", py "baz")]
  /\
  forall q : str,
    has_letter_dot q = false ->
    parse_options q = [] /\ baseline_heuristic q (parse_options q) = [].
Proof.
  split; [reflexivity|]. intros q H.
  rewrite (parse_options_none q H). split; [reflexivity|].
  rewrite baseline_heuristic_cascade. unfold rule1_fires. simpl.
  now rewrite andb_false_r.
Qed.

(** C9.  The letter of every extracted option is exactly one character,
    from A-Z or from the Cyrillic А-Я; so every character of the decision
    on the extracted options is such a character, and is the letter of an
    extracted option. *)
Theorem C9_letters_are_uppercase (q : str) :
  (forall letter text,
      In (letter, text) (parse_options q) ->
      exists c, letter = [c] /\ (65 <= c <= 90 \/ 0x410 <= c <= 0x42f))
  /\
  (forall c,
      In c (baseline_heuristic q (parse_options q)) ->
      (65 <= c <= 90 \/ 0x410 <= c <= 0x42f) /\
      exists text, In ([c], text) (parse_options q)).
Proof.
  split.
  - intros letter text H. apply parse_options_letters in H.
    destruct H as [c [H Hc]]. exists c. now rewrite <- is_option_letter_range.
  - intros c H. apply decision_from_options in H. destruct H as [[l t] [Ho Hc]].
    pose proof (parse_options_letters _ _ Ho) as [c' [E Hc']].
    simpl in E, Hc. subst l. destruct Hc as [->|[]].
    split; [now apply is_option_letter_range|]. now exists t.
Qed.

End ExtractionTheorems.

(* ================================================================== *)
(** * The equation normaliser                                          *)
(* ================================================================== *)

Section NormalizerFacts.
Context {cd : CaseData} {laws : CaseLaws cd}.
Import PyFacts.

Lemma ascii_lower_stable (c : N) : c < 128 -> stable (ascii_lower c).
Proof.
  intros Hc. unfold stable, lower_char, ascii_lower, CAPITAL_SIGMA.
  destruct (N.leb_spec 65 c), (N.leb_spec c 90); simpl;
    repeat match goal with
           | |- context [?a <? ?b] => destruct (N.ltb_spec a b); try lia
           | |- context [?a <=? ?b] => destruct (N.leb_spec a b); try lia
           end; simpl; split; (reflexivity || lia).
Qed.

Lemma lower_char_stable (c : N) : Forall stable (lower_char c).
Proof.
  unfold lower_char. destruct (N.ltb_spec c 128) as [Hc|Hc].
  - constructor; [now apply ascii_lower_stable|constructor].
  - apply Forall_forall. intros d Hd. now apply (lower_stable c d).
Qed.

Lemma sigma_stable (b : bool) :
  stable (if b then SMALL_FINAL_SIGMA else SMALL_SIGMA).
Proof.
  destruct b; split;
    (apply final_sigma_stable || apply small_sigma_stable || discriminate).
Qed.

Lemma lower_from_stable (before s : str) : Forall stable (lower_from before s).
Proof.
  revert before; induction s as [|c s IH]; intros before; simpl; [constructor|].
  apply Forall_app. split; [|apply IH].
  destruct (c =? CAPITAL_SIGMA); [|apply lower_char_stable].
  constructor; [apply sigma_stable|constructor].
Qed.

Lemma lower_from_fixed (before s : str) : Forall stable s -> lower_from before s = s.
Proof.
  intros H. revert before; induction H as [|c s [Hc Hs] _ IH]; intros before;
    simpl; [reflexivity|].
  rewrite IH. destruct (N.eqb_spec c CAPITAL_SIGMA); [contradiction|].
  now rewrite Hc.
Qed.

Ltac literal :=
  simpl; repeat constructor;
  try reflexivity; try (intros X; discriminate X).

Ltac through_stages :=
  unfold normalize_equation;
  repeat first
    [ apply replace_removes; solve [literal]
    | apply remove_spaces_no_space
    | apply replace_Forall; [solve [literal]|]
    | apply remove_spaces_Forall ].

Lemma normalize_equation_clean (s : str) : Forall clean (normalize_equation s).
Proof.
  assert (H0 : Forall stable (normalize_equation s))
    by (through_stages; apply lower_from_stable).
  assert (H1 : Forall (fun c => Py.is_space c = false) (normalize_equation s))
    by through_stages.
  assert (H2 : Forall (fun c => c <> SUBSCRIPT_ONE) (normalize_equation s))
    by through_stages.
  assert (H3 : Forall (fun c => c <> SUBSCRIPT_TWO) (normalize_equation s))
    by through_stages.
  assert (H4 : Forall (fun c => c <> FULLWIDTH_EQUALS) (normalize_equation s))
    by through_stages.
  assert (H5 : Forall (fun c => c <> NOT_EQUAL_TO) (normalize_equation s))
    by through_stages.
  assert (H6 : Forall (fun c => c <> LESS_EQUAL) (normalize_equation s))
    by through_stages.
  assert (H7 : Forall (fun c => c <> GREATER_EQUAL) (normalize_equation s))
    by through_stages.
  assert (H8 : Forall (fun c => c <> LESS_SLANTED_EQUAL) (normalize_equation s))
    by through_stages.
  assert (H9 : Forall (fun c => c <> GREATER_SLANTED_EQUAL) (normalize_equation s))
    by through_stages.
  rewrite Forall_forall in *. intros c Hc. unfold clean. repeat split; auto;
    match goal with H : _ |- _ => now apply H end.
Qed.

Lemma normalize_equation_fixed (n : str) : Forall clean n -> normalize_equation n = n.
Proof.
  intros H. unfold normalize_equation, lower.
  rewrite lower_from_fixed
    by (eapply Forall_impl; [|exact H]; unfold clean; tauto).
  rewrite (replace_absent SUBSCRIPT_ONE _ n)
    by (eapply Forall_impl; [|exact H]; unfold clean; tauto).
  rewrite (replace_absent SUBSCRIPT_TWO _ n)
    by (eapply Forall_impl; [|exact H]; unfold clean; tauto).
  rewrite (remove_spaces_absent n)
    by (eapply Forall_impl; [|exact H]; unfold clean; tauto).
  rewrite (replace_absent FULLWIDTH_EQUALS _ n)
    by (eapply Forall_impl; [|exact H]; unfold clean; tauto).
  rewrite (replace_absent NOT_EQUAL_TO _ n)
    by (eapply Forall_impl; [|exact H]; unfold clean; tauto).
  rewrite (replace_absent LESS_EQUAL _ n)
    by (eapply Forall_impl; [|exact H]; unfold clean; tauto).
  rewrite (replace_absent GREATER_EQUAL _ n)
    by (eapply Forall_impl; [|exact H]; unfold clean; tauto).
  rewrite (replace_absent LESS_SLANTED_EQUAL _ n)
    by (eapply Forall_impl; [|exact H]; unfold clean; tauto).
  rewrite (replace_absent GREATER_SLANTED_EQUAL _ n)
    by (eapply Forall_impl; [|exact H]; unfold clean; tauto).
  rewrite (replace_absent GREATER_SLANTED_EQUAL _ n)
    by (eapply Forall_impl; [|exact H]; unfold clean; tauto).
  rewrite (replace_absent LESS_SLANTED_EQUAL _ n)
    by (eapply Forall_impl; [|exact H]; unfold clean; tauto).
  reflexivity.
Qed.

End NormalizerFacts.

(** C8.  Equation normalization is idempotent, for every case table whose
    lower-casing is stable. *)
Theorem C8_normalize_equation_idempotent (cd : CaseData) (laws : CaseLaws cd) (s : str) :
  normalize_equation (normalize_equation s) = normalize_equation s.
Proof. apply normalize_equation_fixed, normalize_equation_clean. Qed.

(* ================================================================== *)
(** * Record processor and batch driver                                *)
(* ================================================================== *)

Section DriverFacts.
Context {cd : CaseData} {il : ImageLib}.

Lemma process_item_mapping (d : list (str * PyVal)) :
  process_item (VDict d) = (answer <- answer_of d ;; Ok (result_record (rid_of d) answer)).
Proof.
  unfold process_item, answer_of, rid_of. simpl.
  destruct (as_str _); reflexivity.
Qed.

Lemma process_item_not_mapping (item : PyVal) :
  is_mapping item = false -> process_item item = Raise AttributeError.
Proof. destruct item; intros H; try discriminate H; reflexivity. Qed.

(** The result of [process_item] always has both keys: the check of the
    driver never raises. *)
Lemma checked_item_process_item (item : PyVal) :
  checked_item item = process_item item.
Proof.
  unfold checked_item.
  destruct item; try reflexivity.
  rewrite process_item_mapping. destruct (answer_of d); reflexivity.
Qed.

Lemma iteration_mapping (d : list (str * PyVal)) :
  iteration (VDict d) =
  match process_item (VDict d) with
  | Ok res => Ok ([res], [])
  | Raise e =>
      Ok (if negb (is_None (rid_of d)) then [result_record (rid_of d) []] else [],
          [ErrorProcessing (rid_of d) e])
  end.
Proof.
  unfold iteration. rewrite checked_item_process_item.
  destruct (process_item (VDict d)); reflexivity.
Qed.

Lemma iteration_not_mapping (item : PyVal) :
  is_mapping item = false -> iteration item = Raise AttributeError.
Proof.
  intros H. unfold iteration.
  rewrite checked_item_process_item, (process_item_not_mapping _ H).
  destruct item; simpl in *; congruence.
Qed.

(** The accumulators of the loop only grow. *)
Lemma main_loop_acc (data results : list PyVal) (err : list diag) :
  main_loop data results err =
  match main_loop data [] [] with
  | (Ok out, msgs) => (Ok (results ++ out), err ++ msgs)
  | (Raise e, msgs) => (Raise e, err ++ msgs)
  end.
Proof.
  revert results err; induction data as [|item data IH]; intros results err; simpl.
  - now rewrite !app_nil_r.
  - destruct (iteration item) as [[out msgs]|e]; [|now rewrite app_nil_r].
    rewrite (IH (results ++ out)), (IH ([] ++ out)). simpl.
    destruct (main_loop data [] []) as [[r|e] m]; now rewrite !app_assoc.
Qed.

Lemma main_loop_cons (item : PyVal) (data : list PyVal) :
  main_loop (item :: data) [] [] =
  match iteration item with
  | Ok (out, msgs) =>
      match main_loop data [] [] with
      | (Ok rest, more) => (Ok (out ++ rest), msgs ++ more)
      | (Raise e, more) => (Raise e, msgs ++ more)
      end
  | Raise e => (Raise e, [])
  end.
Proof.
  simpl. destruct (iteration item) as [[out msgs]|e]; [|reflexivity].
  now rewrite main_loop_acc.
Qed.

(** Over mappings the loop runs to its end. *)
Lemma main_loop_mappings (data : list PyVal) :
  forallb is_mapping data = true ->
  exists msgs, main_loop data [] [] = (Ok (results_of data), msgs).
Proof.
  unfold results_of.
  induction data as [|item data IH]; intros H; [now exists []|].
  apply andb_true_iff in H. destruct H as [Hi Hd].
  destruct (IH Hd) as [more E]. rewrite main_loop_cons.
  destruct item; try discriminate. rewrite iteration_mapping.
  rewrite E in *. simpl.
  destruct (process_item (VDict d)); eexists; reflexivity.
Qed.

(** A value that is not a mapping stops the loop with an exception. *)
Lemma main_loop_not_mappings (data : list PyVal) :
  forallb is_mapping data = false ->
  exists msgs, main_loop data [] [] = (Raise AttributeError, msgs).
Proof.
  induction data as [|item data IH]; intros H; [discriminate|].
  simpl in H. rewrite main_loop_cons.
  destruct (is_mapping item) eqn:Hi.
  - destruct (IH H) as [more E]. rewrite E.
    destruct item; try discriminate. rewrite iteration_mapping.
    destruct (process_item (VDict d)); eexists; reflexivity.
  - rewrite (iteration_not_mapping _ Hi). now exists [].
Qed.

Lemma results_of_app (pre post : list PyVal) :
  forallb is_mapping pre = true ->
  forallb is_mapping post = true ->
  results_of (pre ++ post) = results_of pre ++ results_of post.
Proof.
  intros Hpre Hpost.
  induction pre as [|item pre IH]; [reflexivity|].
  apply andb_true_iff in Hpre. destruct Hpre as [Hi Hpre].
  specialize (IH Hpre).
  destruct (main_loop_mappings pre Hpre) as [m1 E1].
  assert (Hall : forallb is_mapping (pre ++ post) = true)
    by (rewrite forallb_app; apply andb_true_iff; split; assumption).
  destruct (main_loop_mappings _ Hall) as [m2 E2].
  unfold results_of at 1 2. rewrite <- app_comm_cons, !main_loop_cons.
  destruct item; try discriminate. rewrite iteration_mapping.
  rewrite E1, E2, IH.
  destruct (process_item (VDict d)); simpl; now rewrite ?app_assoc.
Qed.

End DriverFacts.

Section DriverTheorems.
Context {cd : CaseData} {il : ImageLib}.

(** What one mapping contributes to the results. *)
Lemma results_of_one (d : list (str * PyVal)) :
  results_of [VDict d] =
  match process_item (VDict d) with
  | Ok res => [res]
  | Raise _ => if negb (is_None (rid_of d)) then [result_record (rid_of d) []] else []
  end.
Proof.
  unfold results_of. rewrite main_loop_cons, iteration_mapping.
  destruct (process_item (VDict d)); simpl; now rewrite ?app_nil_r.
Qed.

(** In a batch of mappings every record contributes on its own. *)
Lemma main_loop_split (pre post : list PyVal) (d : list (str * PyVal)) :
  forallb is_mapping pre = true ->
  forallb is_mapping post = true ->
  exists msgs,
    main_loop (pre ++ VDict d :: post) [] []
    = (Ok (results_of pre ++ results_of [VDict d] ++ results_of post), msgs).
Proof.
  intros Hpre Hpost.
  assert (Hd : forallb is_mapping (VDict d :: post) = true) by exact Hpost.
  assert (Hall : forallb is_mapping (pre ++ VDict d :: post) = true)
    by (rewrite forallb_app; apply andb_true_iff; split; assumption).
  destruct (main_loop_mappings _ Hall) as [msgs E]. exists msgs.
  rewrite E, (results_of_app pre _ Hpre Hd).
  now rewrite (results_of_app [VDict d] post eq_refl Hpost).
Qed.

(** A run over mappings whose results can be written writes what the
    records contribute, each at its place, and ends with status 0. *)
Lemma main_writes_split
    (env : Env) (pre post : list PyVal) (d : list (str * PyVal)) :
  pickle_load env = Ok (VList (pre ++ VDict d :: post)) ->
  forallb is_mapping pre = true ->
  forallb is_mapping post = true ->
  json_dump env (results_of (pre ++ VDict d :: post)) = Ok tt ->
  written (main env)
  = Some (results_of pre ++ results_of [VDict d] ++ results_of post)
  /\ fst (run_script env) = 0%Z.
Proof.
  intros Hload Hpre Hpost Hdump.
  destruct (main_loop_split pre post d Hpre Hpost) as [msgs E].
  assert (R : results_of (pre ++ VDict d :: post)
              = results_of pre ++ results_of [VDict d] ++ results_of post)
    by (unfold results_of at 1; now rewrite E).
  rewrite R in Hdump.
  unfold run_script, main. rewrite Hload, E, Hdump. split; reflexivity.
Qed.

(** C2, amended.  In a run whose input is a list of mappings and whose
    results can be written, a record with a non-null id has exactly one
    result record in the written output, carrying that id, at the record's
    place; the run ends with status 0, no exception leaves the loop, and
    when processing the record raised, the answer of its result is the
    empty string. *)
Theorem C2_one_result_per_identified_record
    (env : Env) (pre post : list PyVal) (d : list (str * PyVal)) (rid : PyVal) :
  pickle_load env = Ok (VList (pre ++ VDict d :: post)) ->
  forallb is_mapping pre = true ->
  forallb is_mapping post = true ->
  json_dump env (results_of (pre ++ VDict d :: post)) = Ok tt ->
  lookup (py "rid") d = Some rid ->
  is_None rid = false ->
  exists answer,
    written (main env)
    = Some (results_of pre ++ [result_record rid answer] ++ results_of post)
    /\ fst (run_script env) = 0%Z
    /\ (exists msgs, iteration (VDict d) = Ok ([result_record rid answer], msgs))
    /\ (forall e, process_item (VDict d) = Raise e -> answer = [])
    /\ (forall res, process_item (VDict d) = Ok res -> res = result_record rid answer).
Proof.
  intros Hload Hpre Hpost Hdump Hrid Hnn.
  destruct (main_writes_split env pre post d Hload Hpre Hpost Hdump) as [W X].
  assert (Hr : rid_of d = rid) by (unfold rid_of; now rewrite Hrid).
  pose proof (iteration_mapping d) as I.
  rewrite results_of_one in W.
  rewrite Hr, Hnn in W, I. simpl in W, I.
  rewrite process_item_mapping, Hr in *.
  destruct (answer_of d) as [a|e]; simpl in *.
  - exists a. repeat split; [assumption|assumption|eexists; exact I|discriminate|congruence].
  - exists []. repeat split; [assumption|assumption|eexists; exact I|discriminate].
Qed.


(** C10, amended.  In a run whose input is a list of mappings and whose
    results can be written, a record whose id is absent or null and whose
    processing succeeds has its result in the written output, at its place,
    with a null id and the answer decided on its question text; and a
    record has nothing in the written output exactly when processing it
    raised and its id is absent or null. *)
Theorem C10_records_without_id
    (env : Env) (pre post : list PyVal) (d : list (str * PyVal)) :
  pickle_load env = Ok (VList (pre ++ VDict d :: post)) ->
  forallb is_mapping pre = true ->
  forallb is_mapping post = true ->
  json_dump env (results_of (pre ++ VDict d :: post)) = Ok tt ->
  exists out,
    written (main env) = Some (results_of pre ++ out ++ results_of post)
    /\ fst (run_script env) = 0%Z
    /\ (lookup (py "rid") d = None \/ lookup (py "rid") d = Some VNone ->
        forall res, process_item (VDict d) = Ok res ->
          out = [res] /\
          exists q,
            as_str (match lookup (py "question") d with
                    | Some v => v
                    | None => VStr []
                    end) = Ok q /\
            res = result_record VNone (baseline_heuristic q (parse_options q)))
    /\ (out = [] <->
        (exists e, process_item (VDict d) = Raise e) /\
        (lookup (py "rid") d = None \/ lookup (py "rid") d = Some VNone)).
Proof.
  intros Hload Hpre Hpost Hdump.
  destruct (main_writes_split env pre post d Hload Hpre Hpost Hdump) as [W X].
  exists (results_of [VDict d]). split; [exact W|]. split; [exact X|].
  split; rewrite results_of_one, process_item_mapping; unfold answer_of, rid_of;
    destruct (as_str _) as [q|e] eqn:Hq; simpl.
  - intros Hrid res [= <-]. split; [reflexivity|]. exists q. split; [reflexivity|].
    destruct Hrid as [-> | ->]; reflexivity.
  - discriminate.
  - split; [discriminate|]. intros [[e He] _]. discriminate.
  - destruct (lookup (py "rid") d) as [[]|]; simpl; split;
      solve [ discriminate
            | intros [_ [F|F]]; discriminate
            | intros _; reflexivity
            | intros _; split; [now exists e | auto] ].
Qed.

End DriverTheorems.

(** C4.  Two mappings that agree on their id and question fields are
    processed to the same outcome, whatever their image fields hold and
    whatever the image library does with them. *)
Theorem C4_image_is_ignored
    (cd : CaseData) (il1 il2 : ImageLib) (d1 d2 : list (str * PyVal)) :
  lookup (py "rid") d1 = lookup (py "rid") d2 ->
  lookup (py "question") d1 = lookup (py "question") d2 ->
  process_item (il := il1) (VDict d1) = process_item (il := il2) (VDict d2)
  /\ iteration (il := il1) (VDict d1) = iteration (il := il2) (VDict d2).
Proof.
  intros Hrid Hq.
  assert (E : process_item (il := il1) (VDict d1) = process_item (il := il2) (VDict d2)).
  { rewrite !process_item_mapping. unfold answer_of, rid_of. now rewrite Hrid, Hq. }
  split; [exact E|].
  rewrite !iteration_mapping, E. unfold rid_of. now rewrite Hrid.
Qed.

(* ================================================================== *)
(** * The small case table obeys the laws; concrete runs               *)
(* ================================================================== *)

Ltac split_ranges :=
  repeat (match goal with
          | |- context [?a <=? ?b] => destruct (N.leb_spec a b)
          | |- context [?a <? ?b] => destruct (N.ltb_spec a b)
          | |- context [?a =? ?b] => destruct (N.eqb_spec a b)
          end; cbn [andb orb negb]; try lia).

Lemma small_case_laws : CaseLaws small_case_data.
Proof.
  split.
  - intros c d Hc.
    unfold lower_char, ascii_lower, CAPITAL_SIGMA. cbn [to_lower_full small_case_data].
    unfold small_to_lower_full at 1, in_range.
    split_ranges; intros [<-|[]]; unfold small_to_lower_full, in_range;
      split_ranges; first [exfalso; lia | split; [reflexivity | lia]].
  - reflexivity.
  - reflexivity.
Qed.

Section Runs.
Import Examples MoreExamples.
Local Existing Instance small_case_data.

Example scenario_A : baseline_heuristic question_A options_A = py "C".
Proof. reflexivity. Qed.

Example scenario_B : baseline_heuristic question_B options_B = py "C".
Proof. reflexivity. Qed.

Example normalize_symbols :
  normalize_equation (py "H" ++ [SUBSCRIPT_ONE] ++ py " " ++ [GREATER_EQUAL]
                      ++ py " H" ++ [SUBSCRIPT_TWO])
  = py "h1>=h2".
Proof. reflexivity. Qed.

(** On ASCII text the case tables are never consulted. *)
Lemma question_h1_any_tables (cd : CaseData) :
  Py.contains (py "h2") (normalize_equation question_h1) = false /\
  looks_like_liquid question_h1 = true /\
  baseline_heuristic question_h1 options_h1 = py "B" /\
  later_rules options_h1 = py "A".
Proof. repeat split; reflexivity. Qed.

(** C1 as stated fails: the normalization of this question contains [h1]
    and not [h2], yet the question is classified as a liquid-level
    comparison, rule 1 fires and answers B where the later rules answer A. *)
Lemma C1_one_token_suffices :
  Py.contains (py "h1") (normalize_equation question_h1) = true /\
  Py.contains (py "h2") (normalize_equation question_h1) = false /\
  looks_like_liquid question_h1 = true /\
  rule1_fires question_h1 options_h1 = true /\
  baseline_heuristic question_h1 options_h1 = py "B" /\
  later_rules options_h1 = py "A".
Proof. repeat split; reflexivity. Qed.

Lemma C1_witness :
  rule1_fires (py "Which level is higher?") options_h1 = false /\
  baseline_heuristic (py "Which level is higher?") options_h1 = later_rules options_h1.
Proof.
  apply (proj2 (C1_liquid_level_needs_one_token (py "Which level is higher?") options_h1));
    reflexivity.
Defined.

Lemma C5_witness :
  baseline_heuristic question_A two_equalities = py "AC" /\
  exists letters : list str,
    baseline_heuristic question_A two_equalities = Py.join letters /\
    StronglySorted Py.lt letters /\
    forall l, In l letters <->
              exists t, In (l, t) two_equalities /\
                        Py.contains (py "h1=h2") (normalize_equation t) = true.
Proof.
  split; [reflexivity|].
  apply (C5_equality_rule_returns_all_equal_letters question_A two_equalities);
    reflexivity.
Defined.

Lemma C6_witness :
  exists letters : list str,
    baseline_heuristic question_B options_B = Py.join letters /\
    StronglySorted Py.lt letters /\
    forall l, In l letters <->
              exists t, In (l, t) options_B /\
                        Py.contains (py "cannot be determined") (lower t) = true.
Proof.
  apply (proj1 (C6_indeterminacy_rule question_B options_B eq_refl)); reflexivity.
Defined.

Lemma C7_witness :
  parse_options (py "What is 2 + 2? a. four b) five") = [] /\
  baseline_heuristic (py "What is 2 + 2? a. four b) five")
                     (parse_options (py "What is 2 + 2? a. four b) five")) = [].
Proof.
  apply (proj2 C7_extraction_of_examples (py "What is 2 + 2? a. four b) five"));
    reflexivity.
Defined.

Lemma C8_witness :
  normalize_equation
    (normalize_equation (py "H" ++ [SUBSCRIPT_ONE] ++ py " " ++ [GREATER_EQUAL]
                         ++ py " H" ++ [SUBSCRIPT_TWO]))
  = normalize_equation (py "H" ++ [SUBSCRIPT_ONE] ++ py " " ++ [GREATER_EQUAL]
                        ++ py " H" ++ [SUBSCRIPT_TWO]).
Proof.
  apply (C8_normalize_equation_idempotent small_case_data small_case_laws).
Defined.

Lemma C9_witness :
  exists c, py "B" = [c] /\ (65 <= c <= 90 \/ 0x410 <= c <= 0x42f).
Proof.
  apply (proj1 (C9_letters_are_uppercase three_options) (py "B") (py "bar")).
  vm_compute. tauto.
Defined.

(** C2 as stated fails: the first record of this batch is a mapping with
    the id 1, and the run writes nothing and ends with status 1, because the
    value after it is no mapping. *)
Lemma C2_lost_beside_non_mapping :
  is_mapping record_1 = true /\
  lookup (py "rid") (entries record_1) = Some (VInt 1) /\
  pickle_load env_with_number = Ok (VList [record_1; VInt 3]) /\
  written (main (il := no_PIL) env_with_number) = None /\
  run_script (il := no_PIL) env_with_number = (1%Z, [Traceback AttributeError]).
Proof. repeat split; reflexivity. Qed.

Lemma C2_witness :
  exists answer,
    written (main (il := toy_PIL) (env_around record_no_question_text))
    = Some (results_of (il := toy_PIL) [record_1] ++ [result_record (VInt 7) answer]
            ++ results_of (il := toy_PIL) [VDict record_no_rid])
    /\ fst (run_script (il := toy_PIL) (env_around record_no_question_text)) = 0%Z
    /\ (exists msgs,
          iteration (il := toy_PIL) (VDict record_no_question_text)
          = Ok ([result_record (VInt 7) answer], msgs))
    /\ (forall e, process_item (il := toy_PIL) (VDict record_no_question_text) = Raise e ->
                  answer = [])
    /\ (forall res, process_item (il := toy_PIL) (VDict record_no_question_text) = Ok res ->
                    res = result_record (VInt 7) answer).
Proof.
  apply (C2_one_result_per_identified_record (il := toy_PIL)
           (env_around record_no_question_text) [record_1] [VDict record_no_rid]
           record_no_question_text (VInt 7)); reflexivity.
Defined.

Lemma C4_witness :
  process_item (il := toy_PIL)
    (VDict [(py "rid", VInt 1); (py "image", VBytes [137; 80]); (py "question", VStr three_options)])
  = process_item (il := no_PIL)
    (VDict [(py "question", VStr three_options); (py "rid", VInt 1)])
  /\
  iteration (il := toy_PIL)
    (VDict [(py "rid", VInt 1); (py "image", VBytes [137; 80]); (py "question", VStr three_options)])
  = iteration (il := no_PIL)
    (VDict [(py "question", VStr three_options); (py "rid", VInt 1)]).
Proof.
  apply (C4_image_is_ignored small_case_data toy_PIL no_PIL); reflexivity.
Defined.

(** C10 as stated fails: the first record of this batch is a mapping
    without an id that is processed without exception, and the run writes
    nothing, because the value after it is no mapping. *)
Lemma C10_lost_beside_non_mapping :
  lookup (py "rid") record_no_rid = None /\
  process_item (il := no_PIL) (VDict record_no_rid) = Ok (result_record VNone (py "A")) /\
  pickle_load env_with_string = Ok (VList [VDict record_no_rid; VStr (py "oops")]) /\
  written (main (il := no_PIL) env_with_string) = None /\
  run_script (il := no_PIL) env_with_string = (1%Z, [Traceback AttributeError]).
Proof. repeat split; reflexivity. Qed.

Lemma C10_witness :
  exists out,
    written (main (il := no_PIL) (env_around record_no_rid))
    = Some (results_of (il := no_PIL) [record_1] ++ out
            ++ results_of (il := no_PIL) [VDict record_no_rid])
    /\ fst (run_script (il := no_PIL) (env_around record_no_rid)) = 0%Z
    /\ (lookup (py "rid") record_no_rid = None \/ lookup (py "rid") record_no_rid = Some VNone ->
        forall res, process_item (il := no_PIL) (VDict record_no_rid) = Ok res ->
          out = [res] /\
          exists q,
            as_str (match lookup (py "question") record_no_rid with
                    | Some v => v
                    | None => VStr []
                    end) = Ok q /\
            res = result_record VNone (baseline_heuristic q (parse_options q)))
    /\ (out = [] <->
        (exists e, process_item (il := no_PIL) (VDict record_no_rid) = Raise e) /\
        (lookup (py "rid") record_no_rid = None \/ lookup (py "rid") record_no_rid = Some VNone)).
Proof.
  apply (C10_records_without_id (il := no_PIL) (env_around record_no_rid)
           [record_1] [VDict record_no_rid] record_no_rid); reflexivity.
Defined.

(** A run of the script on a list that holds a value that is no mapping:
    the exception leaves [main], the status is 1. *)
Example run_on_non_mapping :
  run_script (il := no_PIL)
    {| pickle_load := Ok (VList [record_1; VInt 3]); json_dump := fun _ => Ok tt |}
  = (1%Z, [Traceback AttributeError]).
Proof. reflexivity. Qed.

Example run_on_mappings :
  run_script (il := no_PIL)
    {| pickle_load := Ok (VList [record_1; VDict record_no_question_text; VDict record_no_rid]);
       json_dump := fun _ => Ok tt |}
  = (0%Z, [ErrorProcessing (VInt 7) AttributeError])
  /\
  written (main (il := no_PIL)
    {| pickle_load := Ok (VList [record_1; VDict record_no_question_text; VDict record_no_rid]);
       json_dump := fun _ => Ok tt |})
  = Some [result_record (VInt 1) (py "A");
          result_record (VInt 7) [];
          result_record VNone (py "A")].
Proof. split; reflexivity. Qed.

End Runs.

(* ================================================================== *)
(** * Further properties of the option extractor                       *)
(* ================================================================== *)

Module LineFacts.
Import PyFacts ExtractFacts.

Lemma has_letter_dot_after_LF (s : str) : has_letter_dot (LF :: s) = has_letter_dot s.
Proof. destruct s; reflexivity. Qed.

(** Normalising the line endings neither creates nor destroys a
    letter-period pair. *)
Lemma crlf_letter_dot (n : nat) (s : str) (c : N) :
  (List.length s <= n)%nat ->
  has_letter_dot (c :: Py.replace [CR; LF] [LF] s) = has_letter_dot (c :: s).
Proof.
  unfold Py.replace. revert s c; induction n as [|n IH]; intros s c Hn.
  - destruct s; [reflexivity|simpl in Hn; lia].
  - destruct s as [|x s]; [reflexivity|]. simpl in Hn.
    cbn [Py.replace_from]. destruct (Py.startswith [CR; LF] (x :: s)) eqn:E.
    + destruct s as [|y s]; cbn [Py.startswith] in E;
        [now rewrite andb_false_r in E|].
      rewrite !andb_true_iff, !N.eqb_eq in E. destruct E as [<- [<- _]].
      cbn [List.length app Py.replace_from].
      rewrite (has_letter_dot_cons c LF), (has_letter_dot_cons c CR),
        (has_letter_dot_cons CR LF).
      rewrite IH by (simpl in Hn; lia).
      replace (LF =? DOT) with false by reflexivity.
      replace (CR =? DOT) with false by reflexivity.
      now rewrite !andb_false_r.
    + rewrite (has_letter_dot_cons c x), (has_letter_dot_cons c x).
      now rewrite IH by lia.
Qed.

Lemma cr_letter_dot (s : str) (c : N) :
  has_letter_dot ((if CR =? c then LF else c) :: Py.replace [CR] [LF] s)
  = has_letter_dot (c :: s).
Proof.
  rewrite replace_char. revert c; induction s as [|d s IH]; intros c; [reflexivity|].
  cbn [flat_map].
  replace ((if CR =? d then [LF] else [d])
           ++ flat_map (fun c => if CR =? c then [LF] else [c]) s)
    with ((if CR =? d then LF else d)
          :: flat_map (fun c => if CR =? c then [LF] else [c]) s)
    by (destruct (CR =? d); reflexivity).
  rewrite !has_letter_dot_cons, IH.
  destruct (N.eqb_spec CR c) as [<-|Hc], (N.eqb_spec CR d) as [<-|Hd];
    reflexivity.
Qed.

Lemma line_endings_letter_dot (s : str) :
  has_letter_dot (Py.replace [CR] [LF] (Py.replace [CR; LF] [LF] s)) = has_letter_dot s.
Proof.
  rewrite <- (has_letter_dot_after_LF (Py.replace [CR] [LF] _)).
  change LF with (if CR =? LF then LF else LF) at 1.
  rewrite cr_letter_dot, (crlf_letter_dot (List.length s)) by lia.
  apply has_letter_dot_after_LF.
Qed.

(** Where the text has a letter-period pair the pattern matches. *)
Lemma findall_some (s : str) : has_letter_dot s = true -> findall s <> [].
Proof.
  unfold findall. induction s as [|c s IH]; [discriminate|].
  destruct s as [|d s]; [discriminate|].
  rewrite has_letter_dot_cons. cbn [findall_from]. unfold match_option.
  destruct (is_option_letter c && (d =? DOT)); [discriminate|].
  exact IH.
Qed.

(** The per-line fallback finds nothing in a text without a letter-period
    pair. *)
Lemma fallback_none (text : str) :
  has_letter_dot text = false ->
  flat_map
    (fun line =>
       match match_line (Py.strip line) with
       | Some m => [(fst m, Py.strip (snd m))]
       | None => []
       end)
    (Py.split_lines text) = [].
Proof.
  intros H. apply split_lines_no_letter_dot in H.
  induction H as [|line ls Hl Hls IH]; simpl; [reflexivity|]. rewrite IH.
  destruct (match_line (Py.strip line)) as [m|] eqn:E; [|reflexivity].
  apply match_line_letter in E. destruct E as [_ E].
  destruct (strip_infix line) as [p [r Hp]].
  apply (letter_dot_infix p _ r) in E. rewrite <- Hp in E.
  apply has_letter_dot_iff in E. congruence.
Qed.

(** The options are the matches of the pattern: the fallback adds none. *)
Lemma parse_options_findall (q : str) :
  parse_options q =
  map (fun m => (fst m, Py.strip (snd m)))
      (findall (Py.replace [CR] [LF] (Py.replace [CR; LF] [LF] q))).
Proof.
  unfold parse_options.
  destruct (findall _) as [|m ms] eqn:E; [|reflexivity].
  simpl. apply fallback_none.
  destruct (has_letter_dot _) eqn:H; [|reflexivity].
  apply findall_some in H. contradiction.
Qed.

Lemma lstrip_head (s : str) (c : N) (r : str) :
  Py.lstrip s = c :: r -> Py.is_space c = false.
Proof.
  induction s as [|x s IH]; simpl; [discriminate|].
  destruct (Py.is_space x) eqn:E; [assumption|]. now intros [= <- _].
Qed.

Lemma lstrip_fixed (c : N) (r : str) :
  Py.is_space c = false -> Py.lstrip (c :: r) = c :: r.
Proof. intros H. simpl. now rewrite H. Qed.

Lemma rstrip_prefix (s : str) : exists q, s = Py.rstrip s ++ q.
Proof.
  unfold Py.rstrip. destruct (lstrip_suffix (rev s)) as [p Hp].
  exists (rev p). rewrite <- rev_app_distr, <- Hp. now rewrite rev_involutive.
Qed.

(** What [strip] returns has no whitespace at either end. *)
Lemma strip_no_leading (s : str) (c : N) (r : str) :
  Py.strip s = c :: r -> Py.is_space c = false.
Proof.
  unfold Py.strip. intros E. destruct (rstrip_prefix (Py.lstrip s)) as [q Hq].
  rewrite E in Hq. simpl in Hq. eapply lstrip_head, Hq.
Qed.

Lemma strip_no_trailing (s r : str) (c : N) :
  Py.strip s = r ++ [c] -> Py.is_space c = false.
Proof.
  unfold Py.strip, Py.rstrip. intros E.
  apply (f_equal (@rev N)) in E. rewrite rev_involutive, rev_app_distr in E.
  simpl in E. eapply lstrip_head, E.
Qed.

Lemma parse_options_texts (q : str) (o : Option) :
  In o (parse_options q) -> exists raw, snd o = Py.strip raw.
Proof.
  rewrite parse_options_findall. intros [m [<- _]]%in_map_iff. now exists (snd m).
Qed.

(** A text without carriage returns has its line endings normalised. *)
Lemma crlf_absent (s : str) :
  Forall (fun c => c <> CR) s -> Py.replace [CR; LF] [LF] s = s.
Proof.
  unfold Py.replace. induction 1 as [|c s Hc Hs IH]; [reflexivity|].
  cbn [Py.replace_from Py.startswith].
  destruct (N.eqb_spec CR c) as [E|_]; [congruence|]. simpl. now rewrite IH.
Qed.

Lemma line_endings_absent (s : str) :
  Forall (fun c => c <> CR) s ->
  Py.replace [CR] [LF] (Py.replace [CR; LF] [LF] s) = s.
Proof. intros H. now rewrite (crlf_absent s H), replace_absent. Qed.

Lemma with_crlf_normalised (s : str) :
  Forall (fun c => c <> CR) s ->
  Py.replace [CR] [LF] (Py.replace [CR; LF] [LF] (with_crlf s)) = s.
Proof.
  intros H.
  assert (E : Py.replace [CR; LF] [LF] (with_crlf s) = s).
  { unfold with_crlf. rewrite replace_char. unfold Py.replace.
    induction H as [|c s Hc Hs IH]; [reflexivity|].
    cbn [flat_map]. destruct (N.eqb_spec LF c) as [<-|Hn].
    - change (LF :: Py.replace_from [CR; LF] [LF]
                      (flat_map (fun c => if LF =? c then [CR; LF] else [c]) s) O
              = LF :: s).
      now rewrite IH.
    - cbn [app Py.replace_from Py.startswith].
      destruct (N.eqb_spec CR c) as [E|_]; [congruence|]. cbn [andb]. now rewrite IH. }
  rewrite E. now apply replace_absent.
Qed.

(** In a text without carriage returns, after each line feed is written as
    a carriage return, no carriage return is followed by a line feed. *)
Lemma with_cr_no_crlf (s : str) :
  Forall (fun c => c <> CR) s ->
  Py.replace [CR; LF] [LF] (with_cr s) = with_cr s.
Proof.
  intros H. unfold with_cr. rewrite replace_char. unfold Py.replace.
  induction H as [|c s Hc Hs IH]; [reflexivity|].
  cbn [flat_map]. destruct (N.eqb_spec LF c) as [<-|Hn].
  - cbn [app]. cbn [Py.replace_from].
    assert (F : Py.startswith [CR; LF]
                  (CR :: flat_map (fun c => if LF =? c then [CR] else [c]) s) = false).
    { destruct s as [|d s]; [reflexivity|]. cbn [flat_map].
      destruct (N.eqb_spec LF d) as [<-|Hd]; [reflexivity|].
      cbn [app Py.startswith]. destruct (N.eqb_spec LF d); [congruence|].
      now rewrite andb_false_r. }
    rewrite F. now rewrite IH.
  - cbn [app Py.replace_from Py.startswith].
    destruct (N.eqb_spec CR c) as [E|_]; [congruence|]. cbn [andb]. now rewrite IH.
Qed.

Lemma with_cr_normalised (s : str) :
  Forall (fun c => c <> CR) s ->
  Py.replace [CR] [LF] (Py.replace [CR; LF] [LF] (with_cr s)) = s.
Proof.
  intros H. rewrite (with_cr_no_crlf s H). unfold with_cr. rewrite !replace_char.
  induction H as [|c s Hc Hs IH]; [reflexivity|].
  cbn [flat_map]. rewrite flat_map_app, IH.
  destruct (N.eqb_spec LF c) as [<-|Hn]; [reflexivity|].
  cbn [flat_map app]. destruct (N.eqb_spec CR c); [congruence|reflexivity].
Qed.

End LineFacts.

Module RoundTripFacts.
Import PyFacts ExtractFacts LineFacts.

Lemma no_CR_Forall (s : str) :
  forallb (fun c => negb (c =? CR)) s = true -> Forall (fun c => c <> CR) s.
Proof.
  rewrite forallb_forall, Forall_forall. intros H c Hc. specialize (H c Hc).
  apply negb_true_iff, N.eqb_neq in H. exact H.
Qed.

Lemma last_cons_default (c : N) (r : str) (d d' : N) :
  last (c :: r) d = last (c :: r) d'.
Proof.
  revert c; induction r as [|x r IH]; intros c; [reflexivity|].
  change (last (x :: r) d = last (x :: r) d'). apply IH.
Qed.

(** What makes a text plain. *)
Lemma plain_text_spec (t : str) :
  plain_text t = true ->
  (exists c r, t = c :: r /\ Py.is_space c = false) /\
  Py.is_space (last t 0) = false /\
  Forall (fun c => c <> LF) t /\ Forall (fun c => c <> CR) t.
Proof.
  destruct t as [|c r]; [discriminate|]. unfold plain_text.
  rewrite !andb_true_iff, !negb_true_iff, forallb_forall. intros [[Hc Hl] Hall].
  split; [now exists c, r|]. split.
  - now rewrite (last_cons_default c r 0 c).
  - split; apply Forall_forall; intros x Hx; specialize (Hall x Hx);
      apply andb_true_iff in Hall; destruct Hall as [H1 H2];
      apply negb_true_iff, N.eqb_neq in H1, H2; assumption.
Qed.

Lemma strip_plain_text (t : str) : plain_text t = true -> Py.strip t = t.
Proof.
  intros H. destruct (plain_text_spec t H) as [[c [r [-> Hc]]] [Hl _]].
  unfold Py.strip. rewrite (lstrip_fixed c r Hc). unfold Py.rstrip.
  assert (Hne : c :: r <> []) by discriminate.
  rewrite (app_removelast_last 0 Hne) at 1.
  rewrite rev_app_distr. cbn [rev app]. rewrite lstrip_fixed by exact Hl.
  cbn [rev]. rewrite rev_involutive. symmetry. now apply app_removelast_last.
Qed.

(** Group 2 stops at the end of a line that an option line or nothing
    follows. *)
Lemma option_body_line (t tail : str) :
  Forall (fun c => c <> LF) t ->
  tail = [] \/ next_marker tail = true ->
  option_body (t ++ tail) = t.
Proof.
  intros Ht Htail. induction Ht as [|c t Hc Ht IH].
  - destruct Htail as [->|Hm]; [reflexivity|].
    destruct tail; [reflexivity|]. cbn [app option_body]. now rewrite Hm.
  - cbn [app option_body]. rewrite IH.
    assert (E : next_marker (c :: t ++ tail) = false).
    { unfold next_marker. destruct (t ++ tail) as [|x [|y l]]; try reflexivity.
      destruct (N.eqb_spec c LF); [contradiction|reflexivity]. }
    now rewrite E.
Qed.

Lemma findall_not_letter (c : N) (s : str) :
  is_option_letter c = false -> findall (c :: s) = findall s.
Proof.
  intros H. rewrite findall_unfold. unfold match_option.
  destruct s as [|d s]; [reflexivity|]. now rewrite H.
Qed.

(** The search passes over a stem without a letter-period pair. *)
Lemma findall_stem (stem rest : str) :
  has_letter_dot stem = false ->
  findall (stem ++ LF :: rest) = findall rest.
Proof.
  induction stem as [|c stem IH]; intros H.
  - now apply findall_not_letter.
  - cbn [app]. rewrite findall_unfold.
    assert (E : match_option (c :: stem ++ LF :: rest) = None).
    { unfold match_option. destruct stem as [|d stem]; cbn [app].
      - replace (LF =? DOT) with false by reflexivity. now rewrite andb_false_r.
      - now rewrite (no_letter_dot_head _ _ _ H). }
    rewrite E. apply IH. eapply no_letter_dot_tail, H.
Qed.

Lemma option_lines_marker (c : N) (t : str) (more : list (N * str)) :
  is_option_letter c = true ->
  next_marker (LF :: option_lines ((c, t) :: more)) = true.
Proof. intros H. cbn [option_lines app next_marker]. now rewrite H. Qed.

Lemma findall_option_lines (opts : list (N * str)) :
  forallb well_formed opts = true ->
  findall (option_lines opts) = map (fun o => ([fst o], snd o)) opts.
Proof.
  induction opts as [|[c t] more IH]; intros H; [reflexivity|].
  cbn [forallb] in H. apply andb_true_iff in H. destruct H as [Ho Hmore].
  unfold well_formed in Ho. cbn [fst snd] in Ho.
  apply andb_true_iff in Ho. destruct Ho as [Hc Ht].
  destruct (plain_text_spec t Ht) as [[x [r [-> Hx]]] [_ [Hlf _]]].
  set (tail := match more with [] => [] | _ :: _ => LF :: option_lines more end).
  assert (Htail : tail = [] \/ next_marker tail = true).
  { subst tail. destruct more as [|[c' t'] more']; [now left|right].
    apply option_lines_marker. cbn [forallb] in Hmore.
    apply andb_true_iff in Hmore. destruct Hmore as [Ho' _].
    unfold well_formed in Ho'. now apply andb_true_iff in Ho'. }
  assert (Hfind : findall tail = map (fun o => ([fst o], snd o)) more).
  { subst tail. destruct more as [|o more']; [reflexivity|].
    rewrite findall_not_letter by reflexivity. now apply IH. }
  cbn [option_lines map fst snd]. fold tail.
  rewrite findall_unfold. unfold match_option. rewrite Hc.
  replace (DOT =? DOT) with true by reflexivity. cbn [andb].
  change (Py.lstrip (SPACE :: (x :: r) ++ tail)) with (Py.lstrip ((x :: r) ++ tail)).
  cbn [app]. rewrite (lstrip_fixed x (r ++ tail) Hx).
  change (x :: r ++ tail) with ((x :: r) ++ tail).
  rewrite (option_body_line (x :: r) tail Hlf Htail).
  replace (2 + (List.length (SPACE :: (x :: r) ++ tail) - List.length ((x :: r) ++ tail))
           + List.length (x :: r))%nat
    with (3 + List.length (x :: r))%nat
    by (cbn [List.length]; lia).
  cbn [Nat.add skipn].
  rewrite skipn_app, skipn_all, Nat.sub_diag. cbn [skipn app]. now rewrite Hfind.
Qed.

Lemma option_lines_no_CR (opts : list (N * str)) :
  forallb well_formed opts = true -> Forall (fun c => c <> CR) (option_lines opts).
Proof.
  induction opts as [|[c t] more IH]; intros H; [constructor|].
  cbn [forallb] in H. apply andb_true_iff in H. destruct H as [Ho Hmore].
  unfold well_formed in Ho. cbn [fst snd] in Ho.
  apply andb_true_iff in Ho. destruct Ho as [Hc Ht].
  destruct (plain_text_spec t Ht) as [_ [_ [_ Hcr]]].
  cbn [option_lines].
  constructor; [intros ->; discriminate|].
  constructor; [discriminate|]. constructor; [discriminate|].
  apply Forall_app. split; [assumption|].
  destruct more; [constructor|]. constructor; [discriminate|]. now apply IH.
Qed.

Lemma map_strip_well_formed (opts : list (N * str)) :
  forallb well_formed opts = true ->
  map (fun m => (fst m, Py.strip (snd m))) (map (fun o => ([fst o], snd o)) opts)
  = map (fun o => ([fst o], snd o)) opts.
Proof.
  induction opts as [|[c t] more IH]; intros H; [reflexivity|].
  cbn [forallb] in H. apply andb_true_iff in H. destruct H as [Ho Hmore].
  unfold well_formed in Ho. apply andb_true_iff in Ho. destruct Ho as [_ Ht].
  cbn [map fst snd] in *. now rewrite (strip_plain_text t Ht), IH.
Qed.

End RoundTripFacts.

Section ExtractorProperties.
Import PyFacts ExtractFacts LineFacts RoundTripFacts.

(** Options written one per line are read back as they were written: for
    option letters with plain one-line texts, alone or after a stem that has
    no letter-period pair and no carriage return, extraction returns exactly
    the letters and texts, in order. *)
Theorem parse_options_reads_option_lines (stem : str) (opts : list (N * str)) :
  has_letter_dot stem = false ->
  forallb (fun c => negb (c =? CR)) stem = true ->
  forallb well_formed opts = true ->
  parse_options (option_lines opts) = map (fun o => ([fst o], snd o)) opts
  /\ parse_options (stem ++ LF :: option_lines opts)
     = map (fun o => ([fst o], snd o)) opts.
Proof.
  intros Hstem Hcr Hopts.
  pose proof (option_lines_no_CR opts Hopts) as Hl.
  apply no_CR_Forall in Hcr.
  split; rewrite parse_options_findall.
  - rewrite (line_endings_absent _ Hl), (findall_option_lines opts Hopts).
    now apply map_strip_well_formed.
  - rewrite line_endings_absent.
    + rewrite (findall_stem stem _ Hstem), (findall_option_lines opts Hopts).
      now apply map_strip_well_formed.
    + apply Forall_app. split; [assumption|]. constructor; [discriminate|assumption].
Qed.

(** Extraction returns no option exactly when the question text has no
    option letter directly followed by a period. *)
Theorem parse_options_empty_iff (q : str) :
  parse_options q = [] <-> has_letter_dot q = false.
Proof.
  rewrite parse_options_findall, <- (line_endings_letter_dot q). split.
  - intros E. destruct (has_letter_dot _) eqn:H; [|reflexivity].
    apply findall_some in H. apply map_eq_nil in E. contradiction.
  - intros H. unfold findall. now rewrite (findall_from_none _ _ H).
Qed.

(** The per-line fallback never contributes: the options are always the
    matches of the primary pattern over the text with normalised line
    endings, their texts stripped. *)
Theorem parse_options_is_primary_pattern (q : str) :
  parse_options q =
  map (fun m => (fst m, Py.strip (snd m)))
      (findall (Py.replace [CR] [LF] (Py.replace [CR; LF] [LF] q))).
Proof. apply parse_options_findall. Qed.

(** No extracted text begins or ends with whitespace. *)
Theorem parse_options_texts_are_stripped (q letter text : str) :
  In (letter, text) (parse_options q) ->
  (forall c r, text = c :: r -> Py.is_space c = false) /\
  (forall r c, text = r ++ [c] -> Py.is_space c = false).
Proof.
  intros H. apply parse_options_texts in H. destruct H as [raw E]. simpl in E.
  split.
  - intros c r Ht. rewrite Ht in E. eapply strip_no_leading. symmetry. exact E.
  - intros r c Ht. rewrite Ht in E. eapply strip_no_trailing. symmetry. exact E.
Qed.

(** Line endings do not matter: a text whose line feeds are written as
    carriage return plus line feed, or as carriage returns, gives the same
    options as the text itself. *)
Theorem parse_options_ignores_line_endings (s : str) :
  forallb (fun c => negb (c =? CR)) s = true ->
  parse_options (with_crlf s) = parse_options s /\
  parse_options (with_cr s) = parse_options s.
Proof.
  intros H. apply no_CR_Forall in H.
  rewrite !parse_options_findall.
  now rewrite (with_crlf_normalised s H), (with_cr_normalised s H),
    (line_endings_absent s H).
Qed.

End ExtractorProperties.

(* ================================================================== *)
(** * Further properties of the normaliser and the decision engine     *)
(* ================================================================== *)

Section NormalizerProperties.
Context {cd : CaseData}.
Import PyFacts.

Ltac plain_literal :=
  simpl; repeat constructor;
  try reflexivity; try (intros X; discriminate X).

Ltac stage_by_stage :=
  unfold normalize_equation;
  repeat first
    [ apply replace_removes; solve [plain_literal]
    | apply remove_spaces_no_space
    | apply replace_Forall; [solve [plain_literal]|]
    | apply remove_spaces_Forall ].

(** A normalised text has no whitespace and none of the glyphs the
    normaliser rewrites: no subscript one or two, no full-width equals, no
    not-equal, less-or-equal or greater-or-equal sign of either kind. *)
Theorem normalize_equation_removes_glyphs (s : str) (c : N) :
  In c (normalize_equation s) ->
  Py.is_space c = false /\
  c <> SUBSCRIPT_ONE /\ c <> SUBSCRIPT_TWO /\
  c <> FULLWIDTH_EQUALS /\ c <> NOT_EQUAL_TO /\
  c <> LESS_EQUAL /\ c <> GREATER_EQUAL /\
  c <> LESS_SLANTED_EQUAL /\ c <> GREATER_SLANTED_EQUAL.
Proof.
  intros Hc.
  assert (H1 : Forall (fun c => Py.is_space c = false) (normalize_equation s))
    by stage_by_stage.
  assert (H2 : Forall (fun c => c <> SUBSCRIPT_ONE) (normalize_equation s))
    by stage_by_stage.
  assert (H3 : Forall (fun c => c <> SUBSCRIPT_TWO) (normalize_equation s))
    by stage_by_stage.
  assert (H4 : Forall (fun c => c <> FULLWIDTH_EQUALS) (normalize_equation s))
    by stage_by_stage.
  assert (H5 : Forall (fun c => c <> NOT_EQUAL_TO) (normalize_equation s))
    by stage_by_stage.
  assert (H6 : Forall (fun c => c <> LESS_EQUAL) (normalize_equation s))
    by stage_by_stage.
  assert (H7 : Forall (fun c => c <> GREATER_EQUAL) (normalize_equation s))
    by stage_by_stage.
  assert (H8 : Forall (fun c => c <> LESS_SLANTED_EQUAL) (normalize_equation s))
    by stage_by_stage.
  assert (H9 : Forall (fun c => c <> GREATER_SLANTED_EQUAL) (normalize_equation s))
    by stage_by_stage.
  rewrite Forall_forall in *. repeat split; auto.
Qed.

Lemma lower_from_ascii (before s : str) :
  Forall (fun c => c < 128) s -> lower_from before s = map ascii_lower s.
Proof.
  intros H. revert before; induction H as [|c s Hc Hs IH]; intros before;
    [reflexivity|].
  cbn [lower_from map]. rewrite IH. unfold lower_char, CAPITAL_SIGMA.
  destruct (N.eqb_spec c 0x3a3); [lia|].
  destruct (N.ltb_spec c 128); [reflexivity|lia].
Qed.

Lemma ascii_lower_ascii (c : N) : c < 128 -> ascii_lower c < 128.
Proof.
  unfold ascii_lower. intros H.
  destruct (N.leb_spec 65 c), (N.leb_spec c 90); simpl; lia.
Qed.

Lemma ascii_not_glyph (g : N) (s : str) :
  128 <= g -> Forall (fun c => c < 128) s -> Forall (fun c => c <> g) s.
Proof. intros Hg. apply Forall_impl. intros c Hc. lia. Qed.

(** On ASCII text normalization is lower-casing of A-Z and removal of
    whitespace, whatever the case tables hold. *)
Theorem normalize_equation_ascii (s : str) :
  forallb (fun c => c <? 128) s = true ->
  normalize_equation s = Py.remove_spaces (map ascii_lower s).
Proof.
  intros H.
  assert (Hs : Forall (fun c => c < 128) s).
  { apply Forall_forall. intros c Hc. rewrite forallb_forall in H.
    now apply N.ltb_lt, H. }
  assert (Hl : Forall (fun c => c < 128) (map ascii_lower s)).
  { apply Forall_forall. intros c [x [<- Hx]]%in_map_iff.
    rewrite Forall_forall in Hs. now apply ascii_lower_ascii, Hs. }
  pose proof (remove_spaces_Forall _ _ Hl) as Hr.
  unfold normalize_equation, lower. rewrite (lower_from_ascii [] s Hs).
  rewrite (replace_absent SUBSCRIPT_ONE _ (map ascii_lower s))
    by (apply ascii_not_glyph; [unfold SUBSCRIPT_ONE; lia|assumption]).
  rewrite (replace_absent SUBSCRIPT_TWO _ (map ascii_lower s))
    by (apply ascii_not_glyph; [unfold SUBSCRIPT_TWO; lia|assumption]).
  set (r := Py.remove_spaces (map ascii_lower s)) in *.
  rewrite (replace_absent FULLWIDTH_EQUALS _ r)
    by (apply ascii_not_glyph; [unfold FULLWIDTH_EQUALS; lia|assumption]).
  rewrite (replace_absent NOT_EQUAL_TO _ r)
    by (apply ascii_not_glyph; [unfold NOT_EQUAL_TO; lia|assumption]).
  rewrite (replace_absent LESS_EQUAL _ r)
    by (apply ascii_not_glyph; [unfold LESS_EQUAL; lia|assumption]).
  rewrite (replace_absent GREATER_EQUAL _ r)
    by (apply ascii_not_glyph; [unfold GREATER_EQUAL; lia|assumption]).
  rewrite (replace_absent LESS_SLANTED_EQUAL _ r)
    by (apply ascii_not_glyph; [unfold LESS_SLANTED_EQUAL; lia|assumption]).
  rewrite (replace_absent GREATER_SLANTED_EQUAL _ r)
    by (apply ascii_not_glyph; [unfold GREATER_SLANTED_EQUAL; lia|assumption]).
  rewrite (replace_absent GREATER_SLANTED_EQUAL _ r)
    by (apply ascii_not_glyph; [unfold GREATER_SLANTED_EQUAL; lia|assumption]).
  rewrite (replace_absent LESS_SLANTED_EQUAL _ r)
    by (apply ascii_not_glyph; [unfold LESS_SLANTED_EQUAL; lia|assumption]).
  reflexivity.
Qed.

End NormalizerProperties.

Module OrderFacts.
Import PyFacts.

Lemma lt_irrefl (a : str) : ~ Py.lt a a.
Proof.
  unfold Py.lt. assert (E : Py.compare a a = Eq) by now apply compare_eq_iff.
  rewrite E. discriminate.
Qed.

(** A strictly ascending list is determined by its members. *)
Lemma strictly_sorted_unique (l1 l2 : list str) :
  StronglySorted Py.lt l1 -> StronglySorted Py.lt l2 ->
  (forall x, In x l1 <-> In x l2) -> l1 = l2.
Proof.
  intros H1. revert l2. induction H1 as [|a l1 Hs1 IH Ha]; intros l2 H2 Hin.
  - destruct l2 as [|b l2]; [reflexivity|]. destruct (proj2 (Hin b)). now left.
  - destruct H2 as [|b l2 Hs2 Hb].
    + destruct (proj1 (Hin a)). now left.
    + rewrite Forall_forall in Ha, Hb.
      assert (E : a = b).
      { destruct (proj1 (Hin a) (or_introl eq_refl)) as [E|Hab]; [now symmetry|].
        destruct (proj2 (Hin b) (or_introl eq_refl)) as [E|Hba]; [assumption|].
        exfalso. apply (lt_irrefl a). eapply lt_trans; [apply Ha, Hba|apply Hb, Hab]. }
      subst b. f_equal. apply IH; [assumption|]. intros x. split; intros Hx.
      * destruct (proj1 (Hin x) (or_intror Hx)) as [<-|Hx']; [|assumption].
        exfalso. eapply lt_irrefl, Ha, Hx.
      * destruct (proj2 (Hin x) (or_intror Hx)) as [<-|Hx']; [|assumption].
        exfalso. eapply lt_irrefl, Hb, Hx.
Qed.

Lemma existsb_same_members {A} (f : A -> bool) (l l' : list A) :
  (forall x, In x l <-> In x l') -> existsb f l = existsb f l'.
Proof.
  intros H. apply eq_true_iff_eq. rewrite !existsb_exists.
  split; intros [x [Hx Hf]]; exists x; split; try assumption; now apply H.
Qed.

Lemma lt_singletons (a b : N) : Py.lt [a] [b] -> a < b.
Proof.
  unfold Py.lt. simpl. destruct (N.compare_spec a b); try discriminate. auto.
Qed.

(** The characters of strictly ascending one-character strings are
    strictly ascending. *)
Lemma join_singletons_sorted (ls : list str) :
  Forall (fun l => exists c, l = [c]) ls ->
  StronglySorted Py.lt ls ->
  StronglySorted N.lt (Py.join ls).
Proof.
  intros Hone Hs. induction Hs as [|l ls Hs IH Hl]; [constructor|].
  inversion Hone as [|? ? [c ->] Hrest]; subst.
  change (StronglySorted N.lt (c :: Py.join ls)).
  constructor; [now apply IH|].
  apply Forall_forall. intros d [l' [Hl' Hd]]%in_join.
  rewrite Forall_forall in Hl, Hrest.
  destruct (Hrest l' Hl') as [d' ->]. destruct Hd as [->|[]].
  apply lt_singletons. now apply Hl.
Qed.

Lemma join_not_empty (ls : list str) (l : str) :
  In l ls -> l <> [] -> Py.join ls <> [].
Proof.
  intros Hl Hne E. destruct l as [|c l]; [contradiction|].
  assert (Hc : In c (Py.join ls)) by (apply in_join; exists (c :: l); simpl; auto).
  now rewrite E in Hc.
Qed.

End OrderFacts.

Section DecisionProperties.
Context {cd : CaseData}.
Import PyFacts OrderFacts.

Lemma selected_not_empty (sel : Option -> bool) (opts : list Option) :
  (forall o, In o opts -> fst o <> []) ->
  existsb sel opts = true ->
  Py.join (Py.sorted (Py.set (map fst (filter sel opts)))) <> [].
Proof.
  intros Hne [o [Ho Hs]]%existsb_exists.
  apply (join_not_empty _ (fst o)); [|now apply Hne].
  apply sorted_set_spec, in_map. now apply filter_In.
Qed.

Lemma selected_sorted (sel : Option -> bool) (opts : list Option) :
  (forall o, In o opts -> exists c, fst o = [c]) ->
  StronglySorted N.lt (Py.join (Py.sorted (Py.set (map fst (filter sel opts))))).
Proof.
  intros Hone. destruct (sorted_set_spec (map fst (filter sel opts))) as [Hs Hin].
  apply join_singletons_sorted; [|assumption].
  apply Forall_forall. intros l Hl. apply Hin, in_map_iff in Hl.
  destruct Hl as [o [<- Ho]]. apply filter_In in Ho. now apply Hone.
Qed.

Lemma selected_same_members (sel : Option -> bool) (opts opts' : list Option) :
  (forall o, In o opts <-> In o opts') ->
  Py.sorted (Py.set (map fst (filter sel opts)))
  = Py.sorted (Py.set (map fst (filter sel opts'))).
Proof.
  intros H.
  destruct (sorted_set_spec (map fst (filter sel opts))) as [Hs Hin].
  destruct (sorted_set_spec (map fst (filter sel opts'))) as [Hs' Hin'].
  apply strictly_sorted_unique; [assumption|assumption|].
  intros l. rewrite Hin, Hin', !in_map_iff.
  split; intros [o [E Ho]]; exists o; (split; [assumption|]);
    apply filter_In in Ho; apply filter_In; split; try tauto; now apply H.
Qed.

(** The decision is the empty string exactly when there is no option,
    provided no option has an empty letter. *)
Theorem decision_empty_iff_no_option (q : str) (opts : list Option) :
  (forall o, In o opts -> fst o <> []) ->
  (baseline_heuristic q opts = [] <-> opts = []).
Proof.
  intros Hne. rewrite baseline_heuristic_cascade. split.
  - destruct opts as [|o opts]; [reflexivity|]. intros E. exfalso. revert E.
    unfold rule1_fires, later_rules, indeterminate.
    destruct (looks_like_liquid q && existsb states_equality (o :: opts)) eqn:R.
    + apply andb_true_iff in R. now apply selected_not_empty.
    + destruct (_ && existsb says_cannot_be_determined (o :: opts)) eqn:I.
      * apply andb_true_iff in I. now apply selected_not_empty.
      * simpl. apply Hne. now left.
  - intros ->. unfold rule1_fires. simpl. now rewrite andb_false_r.
Qed.

(** When every option letter is one character, the characters of the
    decision are strictly ascending: no letter is repeated. *)
Theorem decision_is_strictly_ascending (q : str) (opts : list Option) :
  (forall o, In o opts -> exists c, fst o = [c]) ->
  StronglySorted N.lt (baseline_heuristic q opts).
Proof.
  intros Hone. rewrite baseline_heuristic_cascade.
  destruct (rule1_fires q opts); [now apply selected_sorted|].
  unfold later_rules. destruct (indeterminate opts); [now apply selected_sorted|].
  destruct opts as [|o opts]; [constructor|]. simpl.
  destruct (Hone o (or_introl eq_refl)) as [c ->]. repeat constructor.
Qed.

(** The question text enters the decision only through the liquid-level
    classification, and not at all when no option's normalized text
    contains [h1=h2]. *)
Theorem decision_depends_on_classification (q1 q2 : str) (opts : list Option) :
  (looks_like_liquid q1 = looks_like_liquid q2 ->
   baseline_heuristic q1 opts = baseline_heuristic q2 opts)
  /\
  (existsb (fun o => Py.contains (py "h1=h2") (normalize_equation (snd o))) opts = false ->
   baseline_heuristic q1 opts = baseline_heuristic q2 opts).
Proof.
  rewrite !baseline_heuristic_cascade. unfold rule1_fires. split.
  - now intros ->.
  - intros H. change (existsb states_equality opts = false) in H.
    now rewrite H, !andb_false_r.
Qed.

(** When rule 1 or rule 2 decides, the decision depends only on which
    options there are, not on their order or repetition. *)
Theorem decision_ignores_option_order (q : str) (opts opts' : list Option) :
  (forall o, In o opts <-> In o opts') ->
  (looks_like_liquid q
   && existsb (fun o => Py.contains (py "h1=h2") (normalize_equation (snd o))) opts = true
   \/
   existsb (fun o => Py.contains (py "h1>h2") (normalize_equation (snd o))) opts
   && existsb (fun o => Py.contains (py "h2>h1") (normalize_equation (snd o))) opts
   && negb (existsb (fun o => Py.contains (py "h1=h2") (normalize_equation (snd o))) opts)
   && existsb (fun o => Py.contains (py "cannot be determined") (lower (snd o))) opts
   = true) ->
  baseline_heuristic q opts = baseline_heuristic q opts'.
Proof.
  intros Hsame Hfires.
  change (rule1_fires q opts = true \/ indeterminate opts = true) in Hfires.
  assert (R : rule1_fires q opts' = rule1_fires q opts).
  { unfold rule1_fires. now rewrite (existsb_same_members _ _ _ Hsame). }
  assert (I : indeterminate opts' = indeterminate opts).
  { unfold indeterminate. now rewrite !(existsb_same_members _ _ _ Hsame). }
  rewrite !baseline_heuristic_cascade, R. unfold later_rules. rewrite I.
  destruct (rule1_fires q opts).
  - now rewrite (selected_same_members _ _ _ Hsame).
  - destruct Hfires as [F|F]; [discriminate|]. rewrite F.
    now rewrite (selected_same_members _ _ _ Hsame).
Qed.

End DecisionProperties.

(* ================================================================== *)
(** * Further properties of the record processor and the driver        *)
(* ================================================================== *)

Section DriverMoreFacts.
Context {cd : CaseData} {il : ImageLib}.
Import PyFacts ExtractFacts.

Lemma results_of_cons (d : list (str * PyVal)) (items : list PyVal) :
  forallb is_mapping items = true ->
  results_of (VDict d :: items) = results_of [VDict d] ++ results_of items.
Proof. intros H. now apply (results_of_app [VDict d] items). Qed.

(** When the loop ends, every item was a mapping. *)
Lemma main_loop_ended (items results : list PyVal) (msgs : list diag) :
  main_loop items [] [] = (Ok results, msgs) -> forallb is_mapping items = true.
Proof.
  intros E. destruct (forallb is_mapping items) eqn:H; [reflexivity|].
  destruct (main_loop_not_mappings items H) as [m E']. congruence.
Qed.

(** Over mappings the loop prints the failures, in order. *)
Lemma main_loop_messages (items : list PyVal) :
  forallb is_mapping items = true ->
  main_loop items [] [] =
  (Ok (results_of items), flat_map (fun item => failure_message (entries item)) items).
Proof.
  induction items as [|item items IH]; intros H; [reflexivity|].
  cbn [forallb] in H. apply andb_true_iff in H. destruct H as [Hi H].
  destruct item; try discriminate.
  rewrite (results_of_cons d items H), results_of_one.
  rewrite main_loop_cons, iteration_mapping, (IH H).
  cbn [flat_map entries]. unfold failure_message.
  destruct (process_item (VDict d)); reflexivity.
Qed.

(** What a run that writes its results has done. *)
Lemma main_written (env : Env) (results : list PyVal) :
  written (main env) = Some results ->
  exists items,
    pickle_load env = Ok (VList items) /\
    forallb is_mapping items = true /\
    results = results_of items /\
    stderr (main env) = flat_map (fun item => failure_message (entries item)) items /\
    term (main env) = Returned.
Proof.
  unfold main. destruct (pickle_load env) as [v|e]; [|discriminate].
  destruct v; try discriminate.
  destruct (main_loop l [] []) as [[r|e] msgs] eqn:E; [|discriminate].
  pose proof (main_loop_ended _ _ _ E) as Hm.
  rewrite (main_loop_messages l Hm) in E. injection E as <- <-.
  destruct (json_dump env (results_of l)); [|discriminate].
  intros [= <-]. exists l. repeat split; assumption || reflexivity.
Qed.

(** The result of a mapping: its id and an answer made of option letters. *)
Lemma results_of_one_shape (d : list (str * PyVal)) (r : PyVal) :
  In r (results_of [VDict d]) ->
  exists answer,
    r = result_record (rid_of d) answer /\
    Forall (fun c => is_option_letter c = true) answer.
Proof.
  rewrite results_of_one, process_item_mapping. unfold answer_of.
  destruct (as_str _) as [q|e]; simpl.
  - intros [<-|[]]. eexists. split; [reflexivity|].
    apply Forall_forall. intros c Hc.
    apply decision_from_options in Hc. destruct Hc as [o [Ho Hc]].
    apply parse_options_letters in Ho. destruct Ho as [c' [E Hc']].
    rewrite E in Hc. destruct Hc as [<-|[]]. exact Hc'.
  - destruct (negb (is_None (rid_of d))); [|contradiction].
    intros [<-|[]]. exists []. split; [reflexivity|constructor].
Qed.

Lemma results_of_shape (items : list PyVal) (r : PyVal) :
  forallb is_mapping items = true ->
  In r (results_of items) ->
  exists item answer,
    In item items /\
    r = result_record (rid_of (entries item)) answer /\
    Forall (fun c => is_option_letter c = true) answer.
Proof.
  induction items as [|item items IH]; intros H Hr; [contradiction|].
  cbn [forallb] in H. apply andb_true_iff in H. destruct H as [Hi H].
  destruct item; try discriminate.
  rewrite (results_of_cons d items H) in Hr. apply in_app_iff in Hr.
  destruct Hr as [Hr|Hr].
  - apply results_of_one_shape in Hr. destruct Hr as [answer [E Ha]].
    exists (VDict d), answer. repeat split; [now left|assumption|assumption].
  - destruct (IH H Hr) as [item [answer [Hin [E Ha]]]].
    exists item, answer. repeat split; [now right|assumption|assumption].
Qed.

Lemma results_of_length (items : list PyVal) :
  forallb is_mapping items = true ->
  (List.length (results_of items) <= List.length items)%nat.
Proof.
  induction items as [|item items IH]; intros H; [reflexivity|].
  cbn [forallb] in H. apply andb_true_iff in H. destruct H as [Hi H].
  destruct item; try discriminate.
  rewrite (results_of_cons d items H), length_app, results_of_one.
  specialize (IH H).
  destruct (process_item (VDict d)); [simpl; lia|].
  destruct (negb (is_None (rid_of d))); simpl; lia.
Qed.

Lemma results_of_identified (items : list PyVal) :
  forallb is_mapping items = true ->
  forallb (fun item => negb (is_None (rid_of (entries item)))) items = true ->
  map (fun r => rid_of (entries r)) (results_of items)
  = map (fun item => rid_of (entries item)) items.
Proof.
  induction items as [|item items IH]; intros H Hid; [reflexivity|].
  cbn [forallb] in H, Hid.
  apply andb_true_iff in H. destruct H as [Hi H].
  apply andb_true_iff in Hid. destruct Hid as [Hr Hid].
  destruct item; try discriminate. cbn [entries] in Hr.
  rewrite (results_of_cons d items H), map_app, (IH H Hid), results_of_one.
  rewrite process_item_mapping. cbn [map entries].
  destruct (answer_of d); simpl; [reflexivity|]. now rewrite Hr.
Qed.

End DriverMoreFacts.

Section DriverProperties.
Context {cd : CaseData} {il : ImageLib}.
Import PyFacts ExtractFacts.

Lemma decision_no_options (q : str) : baseline_heuristic q [] = [].
Proof.
  rewrite baseline_heuristic_cascade. unfold rule1_fires. simpl.
  now rewrite andb_false_r.
Qed.


(** A mapping without a question, or whose question has no option letter
    directly followed by a period, is processed to the empty answer,
    whatever its image holds. *)
Theorem process_item_without_options (d : list (str * PyVal)) :
  lookup (py "question") d = None \/
  (exists q, lookup (py "question") d = Some (VStr q) /\ has_letter_dot q = false) ->
  process_item (VDict d) = Ok (result_record (rid_of d) []).
Proof.
  rewrite process_item_mapping. unfold answer_of. intros [->|[q [-> Hq]]]; simpl.
  - now rewrite decision_no_options.
  - now rewrite (parse_options_none q Hq), decision_no_options.
Qed.

(** Every record of a written output is a dict with exactly the keys
    [rid] and [answer]: the id is that of an input record and the answer is
    a string of option letters. *)
Theorem written_results_are_well_formed
    (env : Env) (items results : list PyVal) (r : PyVal) :
  pickle_load env = Ok (VList items) ->
  written (main env) = Some results ->
  In r results ->
  exists item answer,
    In item items /\
    r = VDict [(py "rid", rid_of (entries item)); (py "answer", VStr answer)] /\
    Forall (fun c => 65 <= c <= 90 \/ 0x410 <= c <= 0x42f) answer.
Proof.
  intros Hload Hw Hr.
  destruct (main_written env results Hw) as [items' [E [Hm [-> _]]]].
  rewrite Hload in E. injection E as <-.
  destruct (results_of_shape items r Hm Hr) as [item [answer [Hi [-> Ha]]]].
  exists item, answer. repeat split; try assumption.
  eapply Forall_impl; [|exact Ha]. intros c. apply is_option_letter_range.
Qed.

(** A written output never has more records than the input, and when
    every input record has a non-null id it has the same ids in the same
    order. *)
Theorem written_results_follow_input
    (env : Env) (items results : list PyVal) :
  pickle_load env = Ok (VList items) ->
  written (main env) = Some results ->
  (List.length results <= List.length items)%nat /\
  (forallb (fun item => negb (is_None (rid_of (entries item)))) items = true ->
   map (fun r => rid_of (entries r)) results
   = map (fun item => rid_of (entries item)) items).
Proof.
  intros Hload Hw.
  destruct (main_written env results Hw) as [items' [E [Hm [-> _]]]].
  rewrite Hload in E. injection E as <-.
  split; [now apply results_of_length|now apply results_of_identified].
Qed.

(** A run that writes its output ends normally, and has printed exactly
    one message for each record whose processing raised, in input order:
    nothing at all when every record was processed. *)
Theorem stderr_lists_failed_records
    (env : Env) (items results : list PyVal) :
  pickle_load env = Ok (VList items) ->
  written (main env) = Some results ->
  run_script env
  = (0%Z, flat_map (fun item => failure_message (entries item)) items)
  /\
  ((forall item, In item items -> exists res, process_item item = Ok res) ->
   snd (run_script env) = []).
Proof.
  intros Hload Hw.
  destruct (main_written env results Hw) as [items' [E [Hm [_ [Hs Ht]]]]].
  rewrite Hload in E. injection E as <-.
  assert (R : run_script env
              = (0%Z, flat_map (fun item => failure_message (entries item)) items))
    by (unfold run_script; now rewrite Ht, Hs).
  split; [exact R|]. intros Hall. rewrite R. simpl.
  clear - Hall Hm. induction items as [|item items IH]; [reflexivity|].
  cbn [forallb] in Hm. apply andb_true_iff in Hm. destruct Hm as [Hi Hm].
  destruct item; try discriminate. cbn [flat_map entries].
  unfold failure_message at 1.
  destruct (Hall (VDict d) (or_introl eq_refl)) as [res ->]. simpl.
  apply IH; solve [assumption | intros item Hin; apply Hall; now right].
Qed.

(** [load_image] yields an image only when PIL is available and the blob
    is a byte string, a string, or, numpy being importable, an array of at
    least two dimensions. *)
Theorem load_image_needs_decodable_blob (image_blob : PyVal) (img : Image) :
  load_image image_blob = Some img ->
  PIL_AVAILABLE = true /\
  ((exists b, image_blob = VBytes b) \/
   (exists p, image_blob = VStr p) \/
   (exists a, image_blob = VArray a /\ numpy_importable = true /\ (2 <= ndim a)%nat)).
Proof.
  unfold load_image. destruct PIL_AVAILABLE; [|discriminate]. simpl.
  intros H. split; [reflexivity|].
  destruct image_blob; eauto;
    try (exfalso; revert H; unfold load_array;
         destruct numpy_importable; discriminate).
  right. right. exists a. split; [reflexivity|].
  revert H. unfold load_array. destruct numpy_importable; [|discriminate].
  simpl. intros H. split; [reflexivity|].
  unfold ndim, shape_at, transpose_1_2_0 in *.
  destruct a as [[|s0 [|s1 l]] buf]; simpl in *; try discriminate. lia.
Qed.

(** An array whose shape is (1, h, w), or that has fewer than two
    dimensions, is never decoded. *)
Theorem load_image_rejects_single_channel_first (a : ndarray) :
  (exists h w, shape a = [1; h; w]) \/ (ndim a < 2)%nat ->
  load_image (VArray a) = None.
Proof.
  unfold load_image. destruct PIL_AVAILABLE; [|reflexivity]. simpl.
  unfold load_array. destruct numpy_importable; [|reflexivity]. simpl.
  unfold ndim, shape_at, transpose_1_2_0.
  destruct a as [sh buf]. cbn [shape buffer].
  intros [[h [w ->]]|H]; [reflexivity|].
  destruct sh as [|s0 [|s1 l]]; simpl in *; try reflexivity. lia.
Qed.

End DriverProperties.

Module MarkerFacts.
Import PyFacts ExtractFacts LineFacts.

Lemma option_body_prefix (s : str) : exists r, s = option_body s ++ r.
Proof.
  induction s as [|c s [r IH]]; [now exists []|].
  cbn [option_body]. destruct (next_marker (c :: s)); [now exists (c :: s)|].
  exists r. cbn [app]. congruence.
Qed.

(** Group 2 never runs over the start of an option line. *)
Lemma option_body_marker_free (s x y : str) (c : N) :
  option_body s = x ++ LF :: c :: DOT :: y -> is_option_letter c = false.
Proof.
  revert x; induction s as [|h s IH]; intros x.
  - destruct x; discriminate.
  - cbn [option_body]. destruct (next_marker (h :: s)) eqn:M.
    + destruct x; discriminate.
    + destruct x as [|h' x]; cbn [app].
      * intros [= -> E]. destruct (option_body_prefix s) as [r Hr].
        rewrite E in Hr. rewrite Hr in M. cbn [app next_marker] in M.
        rewrite !N.eqb_refl in M. cbn [andb] in M.
        now rewrite andb_true_r in M.
      * intros [= _ E]. eapply IH, E.
Qed.

Lemma findall_from_bodies (s : str) (skip : nat) (m : str * str) :
  In m (findall_from s skip) -> exists u, snd m = option_body u.
Proof.
  revert skip; induction s as [|x s IH]; intros skip; [contradiction|].
  cbn [findall_from]. destruct skip as [|k]; [|apply IH].
  destruct (match_option (x :: s)) as [[[c body] n]|] eqn:E; [|apply IH].
  intros [<-|Hin]; [|eapply IH; eassumption].
  unfold match_option in E. destruct s as [|d s]; [discriminate|].
  destruct (is_option_letter x && (d =? DOT)); [|discriminate].
  injection E as _ <- _. simpl. eauto.
Qed.

End MarkerFacts.

(** No extracted text contains the start of another option line: a line
    feed, an option letter and a period in a row. *)
Theorem parse_options_texts_hold_no_marker
    (q letter text a b : str) (c : N) :
  In (letter, text) (parse_options q) ->
  text = a ++ LF :: c :: DOT :: b ->
  is_option_letter c = false.
Proof.
  rewrite LineFacts.parse_options_findall.
  intros [m [[= _ E] Hm]]%in_map_iff Ht.
  apply MarkerFacts.findall_from_bodies in Hm. destruct Hm as [u Hu].
  destruct (PyFacts.strip_infix (snd m)) as [p [r Hp]].
  rewrite E, Ht, Hu in Hp.
  apply (MarkerFacts.option_body_marker_free u (p ++ a) (b ++ r)).
  rewrite Hp, <- !app_assoc. reflexivity.
Qed.

(* ================================================================== *)
(** * Concrete runs of the further properties                          *)
(* ================================================================== *)

Section MoreRuns.
Import Examples MoreExamples.
Local Existing Instance small_case_data.

Lemma parse_options_reads_option_lines_run :
  parse_options (option_lines two_options)
  = [(py "A", py "the left one"); (py "B", py "the right one, by far")]
  /\ parse_options (stem ++ LF :: option_lines two_options)
     = [(py "A", py "the left one"); (py "B", py "the right one, by far")].
Proof.
  apply (parse_options_reads_option_lines stem two_options); reflexivity.
Defined.

Lemma parse_options_texts_are_stripped_run :
  (forall c r, py "bar" = c :: r -> Py.is_space c = false) /\
  (forall r c, py "bar" = r ++ [c] -> Py.is_space c = false).
Proof.
  apply (parse_options_texts_are_stripped three_options (py "B") (py "bar")).
  vm_compute. tauto.
Defined.

Lemma parse_options_texts_hold_no_marker_run : is_option_letter 98 = false.
Proof.
  apply (parse_options_texts_hold_no_marker
           (py "A. one" ++ [LF] ++ py "b. two") (py "A")
           (py "one" ++ [LF] ++ py "b. two") (py "one") (py " two") 98).
  - vm_compute. tauto.
  - reflexivity.
Defined.

Lemma parse_options_ignores_line_endings_run :
  parse_options (with_crlf three_options) = parse_options three_options /\
  parse_options (with_cr three_options) = parse_options three_options.
Proof. apply (parse_options_ignores_line_endings three_options). reflexivity. Defined.

Lemma normalize_equation_removes_glyphs_run :
  Py.is_space 62 = false /\
  62 <> SUBSCRIPT_ONE /\ 62 <> SUBSCRIPT_TWO /\
  62 <> FULLWIDTH_EQUALS /\ 62 <> NOT_EQUAL_TO /\
  62 <> LESS_EQUAL /\ 62 <> GREATER_EQUAL /\
  62 <> LESS_SLANTED_EQUAL /\ 62 <> GREATER_SLANTED_EQUAL.
Proof.
  apply (normalize_equation_removes_glyphs
           (py "H" ++ [SUBSCRIPT_ONE] ++ py " " ++ [GREATER_EQUAL] ++ py " H"
            ++ [SUBSCRIPT_TWO]) 62).
  vm_compute. tauto.
Defined.

Lemma normalize_equation_ascii_run :
  normalize_equation (py "H1 >= H2") = Py.remove_spaces (map ascii_lower (py "H1 >= H2")).
Proof. apply (normalize_equation_ascii (py "H1 >= H2")). reflexivity. Defined.

Lemma decision_empty_iff_no_option_run :
  baseline_heuristic question_A options_A = [] <-> options_A = [].
Proof.
  apply (decision_empty_iff_no_option question_A options_A).
  intros o [<-|[<-|[<-|[]]]]; discriminate.
Defined.

Lemma decision_is_strictly_ascending_run :
  StronglySorted N.lt (baseline_heuristic question_A two_equalities).
Proof.
  apply (decision_is_strictly_ascending question_A two_equalities).
  intros o [<-|[<-|[]]]; eexists; reflexivity.
Defined.

Lemma decision_depends_on_classification_run :
  baseline_heuristic question_A options_B = baseline_heuristic question_B options_B.
Proof.
  apply (proj2 (decision_depends_on_classification question_A question_B options_B)).
  reflexivity.
Defined.

Lemma decision_ignores_option_order_run :
  baseline_heuristic question_A two_equalities
  = baseline_heuristic question_A (rev two_equalities ++ two_equalities).
Proof.
  apply (decision_ignores_option_order question_A two_equalities
           (rev two_equalities ++ two_equalities)).
  - intros o. simpl. tauto.
  - left. reflexivity.
Defined.

Lemma process_item_without_options_run :
  process_item (il := toy_PIL) (VDict [(py "rid", VInt 4); (py "image", VBytes [1; 2])])
  = Ok (result_record (VInt 4) []).
Proof.
  apply (process_item_without_options (il := toy_PIL)
           [(py "rid", VInt 4); (py "image", VBytes [1; 2])]).
  left. reflexivity.
Defined.

Lemma written_results_are_well_formed_run :
  exists item answer,
    In item batch /\
    result_record VNone (py "A")
    = VDict [(py "rid", rid_of (entries item)); (py "answer", VStr answer)] /\
    Forall (fun c => 65 <= c <= 90 \/ 0x410 <= c <= 0x42f) answer.
Proof.
  apply (written_results_are_well_formed (il := no_PIL) sample_env batch batch_results).
  - reflexivity.
  - reflexivity.
  - simpl. tauto.
Defined.

Lemma written_results_follow_input_run :
  (List.length [result_record (VInt 1) (py "A"); result_record (VInt 7) []]
   <= List.length identified_batch)%nat /\
  (forallb (fun item => negb (is_None (rid_of (entries item)))) identified_batch = true ->
   map (fun r => rid_of (entries r))
       [result_record (VInt 1) (py "A"); result_record (VInt 7) []]
   = map (fun item => rid_of (entries item)) identified_batch).
Proof.
  apply (written_results_follow_input (il := no_PIL) identified_env identified_batch);
    reflexivity.
Defined.

Lemma stderr_lists_failed_records_run :
  run_script (il := no_PIL) sample_env
  = (0%Z, flat_map (fun item => failure_message (il := no_PIL) (entries item)) batch)
  /\
  ((forall item, In item batch -> exists res, process_item (il := no_PIL) item = Ok res) ->
   snd (run_script (il := no_PIL) sample_env) = []).
Proof.
  apply (stderr_lists_failed_records (il := no_PIL) sample_env batch batch_results);
    reflexivity.
Defined.

Lemma load_image_needs_decodable_blob_run :
  PIL_AVAILABLE (ImageLib := toy_PIL) = true /\
  ((exists b, VBytes [137; 80] = VBytes b) \/
   (exists p, VBytes [137; 80] = VStr p) \/
   (exists a, VBytes [137; 80] = VArray a /\
              numpy_importable (ImageLib := toy_PIL) = true /\ (2 <= ndim a)%nat)).
Proof.
  apply (load_image_needs_decodable_blob (il := toy_PIL) (VBytes [137; 80]) [137; 80]).
  reflexivity.
Defined.

Lemma load_image_rejects_single_channel_first_run :
  load_image (il := toy_PIL) (VArray {| shape := [1; 2; 2]; buffer := [0; 1; 2; 3] |}) = None.
Proof.
  apply (load_image_rejects_single_channel_first (il := toy_PIL)
           {| shape := [1; 2; 2]; buffer := [0; 1; 2; 3] |}).
  left. now exists 2, 2.
Defined.

(** The same array with its channel axis last is decoded. *)
Example load_image_channel_last :
  load_image (il := toy_PIL) (VArray {| shape := [2; 1; 3]; buffer := [0; 1; 2; 3; 4; 5] |})
  = Some [0; 1; 2; 3; 4; 5].
Proof. reflexivity. Qed.

End MoreRuns.
